(** * newsapi.js: the news-context module, embedded and verified

    The module under [src/api/newsapi.js] has three functions:
    [fetchNewsSentiment] (exported, asynchronous, wrapped in one
    try/catch), [structureNewsData] and [extractThemes].  They are
    embedded here as functions over a model of the JavaScript values
    that can reach them: the values produced by [JSON.parse] plus
    [undefined].

    Conventions of the embedding
    - a JavaScript string is a [string] of 8-bit characters, and
      [toLowerCase] acts on the letters A-Z and leaves every other
      character as it is, which is what the engine does on ASCII text;
    - a number is carried as the text [Number.prototype.toString]
      renders it with (["0"] stands for both zeros);
    - a thrown exception is an [error]: the engine's own faults are
      TypeErrors, and [fetch] and [Response.json] may reject with an
      Error object or with any other value, [undefined] and [null]
      included;
    - [console.warn], [console.error], the network call and the body
      read are recorded as a trace of [event]s. *)

From Stdlib Require Import Ascii DecimalString DecimalNat.
From stdpp Require Import list strings sorting.

(** ** Values, faults and results *)

#[local] Unset Elimination Schemes.
Inductive jsval : Type :=
| JUndefined
| JNull
| JBool (b : bool)
| JNum (repr : string)
| JStr (s : string)
| JArr (items : list jsval)
| JObj (props : list (string * jsval)).
#[local] Set Elimination Schemes.

(** What a [throw] or a rejected promise carries.  The first four are
    Error objects, each with a [message]; [Thrown v] is any other
    value, [undefined] and [null] included, as a rejection may carry. *)
Inductive error : Type :=
| ReadOfNullish (prop : string)   (* TypeError: property read on undefined or null *)
| NotCallable (prop : string)     (* TypeError: the property called is not a function *)
| NoPrimitive                     (* TypeError: object cannot be converted to a primitive *)
| PlatformError (message : string) (* Error object thrown by fetch or by json() *)
| Thrown (v : jsval).             (* a value that is not an Error object *)

Inductive result (A : Type) : Type :=
| Ret (a : A)
| Throw (e : error).
Arguments Ret {A} a.
Arguments Throw {A} e.

Definition bind {A B : Type} (m : result A) (k : A -> result B) : result B :=
  match m with
  | Ret a => k a
  | Throw e => Throw e
  end.

Notation "'let*' x ':=' m 'in' k" := (bind m (fun x => k))
  (at level 10, x name, m at level 100, k at level 200).

(** ** Primitive operations of the language *)

(** Rendering of a non-negative integer, as [String(n)] gives it. *)
Definition render (n : nat) : string := NilZero.string_of_uint (Nat.to_uint n).

(** ToBoolean. *)
Definition truthy (v : jsval) : bool :=
  match v with
  | JUndefined | JNull => false
  | JBool b => b
  | JNum r => negb (String.eqb r "0" || String.eqb r "NaN")
  | JStr s => negb (String.eqb s "")
  | JArr _ | JObj _ => true
  end.

Definition nullish (v : jsval) : bool :=
  match v with
  | JUndefined | JNull => true
  | _ => false
  end.

(** [v === 0]. *)
Definition strict_eq_zero (v : jsval) : bool :=
  match v with
  | JNum r => String.eqb r "0"
  | _ => false
  end.

(** Own data property of an object literal, [undefined] when missing. *)
Fixpoint lookup_own (k : string) (props : list (string * jsval)) : jsval :=
  match props with
  | [] => JUndefined
  | (k', v) :: rest => if String.eqb k k' then v else lookup_own k rest
  end.

Definition has_own (k : string) (props : list (string * jsval)) : bool :=
  existsb (fun p => String.eqb k (fst p)) props.

(** [v.k] for the data properties this module reads ([NEWSAPI_KEY],
    [articles], [length], [title], [description], [source], [name],
    [publishedAt], [url]); methods are called through [call_slice],
    [extractThemes] (forEach) and [call_map]. *)
Definition get_prop (v : jsval) (k : string) : result jsval :=
  match v with
  | JUndefined | JNull => Throw (ReadOfNullish k)
  | JObj props => Ret (lookup_own k props)
  | JArr items =>
      Ret (if String.eqb k "length" then JNum (render (length items)) else JUndefined)
  | JStr s =>
      Ret (if String.eqb k "length" then JNum (render (String.length s)) else JUndefined)
  | JBool _ | JNum _ => Ret JUndefined
  end.

(** ToString, as the [+] operator and [URLSearchParams] apply it.  An
    array is joined with commas, [undefined] and [null] elements giving
    the empty text; a plain object renders as [[object Object]] unless
    it carries an own [toString] entry, which is never callable in
    parsed data, so the conversion faults. *)
Fixpoint to_string (v : jsval) : result string :=
  match v with
  | JUndefined => Ret "undefined"
  | JNull => Ret "null"
  | JBool true => Ret "true"
  | JBool false => Ret "false"
  | JNum r => Ret r
  | JStr s => Ret s
  | JArr items =>
      (fix join (l : list jsval) : result string :=
         match l with
         | [] => Ret ""
         | x :: rest =>
             let* s := (if nullish x then Ret "" else to_string x) in
             match rest with
             | [] => Ret s
             | _ :: _ => let* r := join rest in Ret (s +:+ "," +:+ r)
             end
         end) items
  | JObj props =>
      if has_own "toString" props then Throw NoPrimitive else Ret "[object Object]"
  end.

Definition lower_ascii (c : ascii) : ascii :=
  let n := nat_of_ascii c in
  if Nat.leb 65 n && Nat.leb n 90 then ascii_of_nat (n + 32) else c.

Fixpoint toLowerCase (s : string) : string :=
  match s with
  | EmptyString => EmptyString
  | String c s' => String (lower_ascii c) (toLowerCase s')
  end.

(** [text.includes(kw)]. *)
Fixpoint includes (text kw : string) : bool :=
  String.prefix kw text ||
  match text with
  | EmptyString => false
  | String _ rest => includes rest kw
  end.

(** [v.slice(0, n)]: arrays and strings have the method. *)
Definition call_slice (v : jsval) (n : nat) : result jsval :=
  match v with
  | JUndefined | JNull => Throw (ReadOfNullish "slice")
  | JArr items => Ret (JArr (take n items))
  | JStr s => Ret (JStr (String.substring 0 n s))
  | JBool _ | JNum _ | JObj _ => Throw (NotCallable "slice")
  end.

(** ** extractThemes *)

Definition themeKeywords : list (string * list string) :=
  [ ("monetary_policy",
      ["fed"; "federal reserve"; "powell"; "interest rates"; "hawkish"; "dovish"; "policy"]);
    ("inflation", ["inflation"; "cpi"; "prices"; "pce"; "deflation"]);
    ("growth", ["gdp"; "growth"; "recession"; "expansion"; "contraction"]);
    ("employment", ["jobs"; "unemployment"; "payrolls"; "labor"; "wages"]);
    ("markets", ["stocks"; "equities"; "bonds"; "yields"; "volatility"]) ].

(** The [themeCounts] object: its entries in insertion order, which is
    the order [Object.entries] lists them in. *)
Definition counts : Type := list (string * nat).

Fixpoint obj_get (theme : string) (o : counts) : option nat :=
  match o with
  | [] => None
  | (k, n) :: rest => if String.eqb theme k then Some n else obj_get theme rest
  end.

(** Assignment to a key: in place when the key exists, appended
    otherwise. *)
Fixpoint obj_set (theme : string) (n : nat) (o : counts) : counts :=
  match o with
  | [] => [(theme, n)]
  | (k, m) :: rest =>
      if String.eqb theme k then (k, n) :: rest else (k, m) :: obj_set theme n rest
  end.

(** [themeCounts[theme] = (themeCounts[theme] || 0) + 1]. *)
Definition bump (theme : string) (o : counts) : counts :=
  obj_set theme (default 0 (obj_get theme o) + 1) o.

(** Line 95: [(article.title + ' ' + (article.description || '')).toLowerCase()]. *)
Definition search_text (article : jsval) : result string :=
  let* title := get_prop article "title" in
  let* left := to_string title in
  let* description := get_prop article "description" in
  let* right := to_string (if truthy description then description else JStr "") in
  Ret (toLowerCase (left +:+ " " +:+ right)).

(** [keywords.some(kw => text.includes(kw))]. *)
Definition some_keyword (text : string) (keywords : list string) : bool :=
  existsb (fun kw => includes text kw) keywords.

(** Lines 97-101: the inner loop over the keyword table, one entry at
    a time. *)
Definition count_theme (text : string) (acc : counts) (entry : string * list string) : counts :=
  if some_keyword text (snd entry) then bump (fst entry) acc else acc.

Definition count_article (text : string) (themeCounts : counts) : counts :=
  fold_left (count_theme text) themeKeywords themeCounts.

(** Lines 94-102: the outer loop; a fault in an article aborts it. *)
Fixpoint forEach_articles (items : list jsval) (themeCounts : counts) : result counts :=
  match items with
  | [] => Ret themeCounts
  | article :: rest =>
      let* text := search_text article in
      forEach_articles rest (count_article text themeCounts)
  end.

(** [Array.prototype.sort] with comparator [(a, b) => b[1] - a[1]]: a
    stable sort by descending count, here by insertion. *)
Fixpoint insert_desc (a : string * nat) (l : counts) : counts :=
  match l with
  | [] => [a]
  | b :: rest => if Nat.ltb (snd a) (snd b) then b :: insert_desc a rest else a :: b :: rest
  end.

Fixpoint sort_desc (l : counts) : counts :=
  match l with
  | [] => []
  | a :: rest => insert_desc a (sort_desc rest)
  end.

Definition extractThemes (articles : jsval) : result (list string) :=
  match articles with
  | JArr items =>
      let* themeCounts := forEach_articles items [] in
      Ret (map fst (take 3 (sort_desc themeCounts)))
  | JUndefined | JNull => Throw (ReadOfNullish "forEach")
  | JBool _ | JNum _ | JStr _ | JObj _ => Throw (NotCallable "forEach")
  end.

(** ** structureNewsData *)

Record headline : Type := Headline {
  title : jsval;
  source : jsval;
  publishedAt : jsval;
  url : jsval
}.

Record summary : Type := Summary {
  articleCount : nat;
  themes : list string;
  headlines : list headline;
  timestamp : string
}.

(** Lines 64-69: the arrow function given to [map]. *)
Definition headline_of (a : jsval) : result headline :=
  let* t := get_prop a "title" in
  let* src := get_prop a "source" in
  let* name := get_prop src "name" in
  let* p := get_prop a "publishedAt" in
  let* u := get_prop a "url" in
  Ret (Headline t name p u).

Fixpoint map_result {A B : Type} (f : A -> result B) (l : list A) : result (list B) :=
  match l with
  | [] => Ret []
  | x :: rest =>
      let* y := f x in
      let* ys := map_result f rest in
      Ret (y :: ys)
  end.

(** [v.map(f)]: only arrays have the method. *)
Definition call_map {B : Type} (v : jsval) (f : jsval -> result B) : result (list B) :=
  match v with
  | JUndefined | JNull => Throw (ReadOfNullish "map")
  | JArr items => map_result f items
  | JBool _ | JNum _ | JStr _ | JObj _ => Throw (NotCallable "map")
  end.

(** [articles.length] of the sliced value, read at line 72 once
    [forEach] and [map] have run on it. *)
Definition array_length (v : jsval) : nat :=
  match v with
  | JArr items => length items
  | JStr s => String.length s
  | _ => 0
  end.

(** [now] is what [new Date().toISOString()] gives at line 75; [None]
    is the [null] result. *)
Definition structureNewsData (now : string) (rawData : jsval) : result (option summary) :=
  let* all := get_prop rawData "articles" in
  if negb (truthy all) then Ret None
  else
    let* len := get_prop all "length" in
    if strict_eq_zero len then Ret None
    else
      let* articles := call_slice all 10 in
      let* themes := extractThemes articles in
      let* recentHeadlines := call_map articles headline_of in
      Ret (Some (Summary (array_length articles) themes recentHeadlines now)).

(** ** fetchNewsSentiment *)

Record request : Type := Request {
  endpoint : string;
  params : list (string * string)
}.

Record response : Type := Response {
  ok : bool;
  status : nat;
  json : result jsval
}.

(** What the module does to the outside, in order. *)
Inductive event : Type :=
| ConsoleWarn (msg : string)
| ConsoleError (label : string) (err : error)   (* label, then the message of [err] *)
| NetworkCall (req : request)
| BodyRead.

(** The outside: the outcome of [fetch] for a request, and the clock. *)
Record world : Type := World {
  fetch : request -> result response;
  clock : string
}.

(** An effectful computation: the events it emitted and how it ended. *)
Definition prog (A : Type) : Type := list event * result A.

Definition pure {A : Type} (a : A) : prog A := ([], Ret a).
Definition lift {A : Type} (r : result A) : prog A := ([], r).
Definition emit (e : event) : prog unit := ([e], Ret tt).

Definition pbind {A B : Type} (m : prog A) (k : A -> prog B) : prog B :=
  match m with
  | (tr, Ret a) => let (tr', r) := k a in (tr ++ tr', r)
  | (tr, Throw e) => (tr, Throw e)
  end.

Definition try_catch {A : Type} (body : prog A) (handler : error -> prog A) : prog A :=
  match body with
  | (tr, Ret a) => (tr, Ret a)
  | (tr, Throw e) => let (tr', r) := handler e in (tr ++ tr', r)
  end.

Notation "'do' x '<-' m ';' k" := (pbind m (fun x => k))
  (at level 10, x name, m at level 100, k at level 200).
Notation "m ';;' k" := (pbind m (fun _ => k))
  (at level 100, k at level 200, right associativity).

(** [new URLSearchParams({...})]: every value goes through ToString. *)
Fixpoint URLSearchParams (init : list (string * jsval)) : result (list (string * string)) :=
  match init with
  | [] => Ret []
  | (k, v) :: rest =>
      let* s := to_string v in
      let* ps := URLSearchParams rest in
      Ret ((k, s) :: ps)
  end.

Definition call_fetch (w : world) (req : request) : prog response :=
  ([NetworkCall req], fetch w req).

Definition call_json (r : response) : prog jsval :=
  ([BodyRead], json r).

(** [error.message] at line 47: an Error object has one, any value other
    than [undefined] and [null] can be asked for one, and on those two
    the read faults. *)
Definition read_message (e : error) : result unit :=
  match e with
  | Thrown v => let* _ := get_prop v "message" in Ret tt
  | ReadOfNullish _ | NotCallable _ | NoPrimitive | PlatformError _ => Ret tt
  end.

Definition fetchNewsSentiment (w : world) (env : jsval) : prog (option summary) :=
  try_catch
    (do apiKey <- lift (get_prop env "NEWSAPI_KEY");
     if negb (truthy apiKey) then
       emit (ConsoleWarn "NEWSAPI_KEY not configured");;
       pure None
     else
       do params <- lift (URLSearchParams
                            [ ("q", JStr "economy OR federal reserve OR inflation OR GDP OR markets");
                              ("language", JStr "en");
                              ("sortBy", JStr "publishedAt");
                              ("pageSize", JNum "20");
                              ("apiKey", apiKey) ]);
       do response <- call_fetch w (Request "https://newsapi.org/v2/everything" params);
       if negb (ok response) then
         emit (ConsoleWarn ("NewsAPI returned " +:+ render (status response)));;
         pure None
       else
         do data <- call_json response;
         lift (structureNewsData (clock w) data))
    (fun error =>
       lift (read_message error);;
       emit (ConsoleError "NewsAPI fetch failed:" error);;
       pure None).

(** * Vocabulary of the statements *)

(** Index of the first element satisfying [P]; the length when there is none. *)
Fixpoint find_index {A : Type} (P : A -> bool) (l : list A) : nat :=
  match l with
  | [] => 0
  | x :: rest => if P x then 0 else S (find_index P rest)
  end.

(** Position of a label in a list of labels. *)
Definition pos (x : string) (l : list string) : nat := find_index (String.eqb x) l.

Definition keys (o : counts) : list string := map fst o.

(** Every entry of a well-formed object has its own key and a positive count. *)
Definition counts_wf (o : counts) : Prop :=
  NoDup (keys o) /\ forall th n, obj_get th o = Some n -> 0 < n.

Definition hit (text : string) (entry : string * list string) : bool :=
  some_keyword text (snd entry).

(** Whether [th] is a theme of the table [tbl] one of whose keywords
    occurs in [text]. *)
Definition matches_in (tbl : list (string * list string)) (th text : string) : bool :=
  existsb (fun e => String.eqb th (fst e) && hit text e) tbl.

Definition new_in (K : list string) (th : string) : bool :=
  negb (existsb (String.eqb th) K).

(** The themes of [tbl] that [text] triggers, in table order. *)
Definition matched (tbl : list (string * list string)) (text : string) : list string :=
  map fst (List.filter (hit text) tbl).

Definition theme_matches (th text : string) : bool := matches_in themeKeywords th text.

(** Number of texts that trigger [th]. *)
Definition occurrences (th : string) (texts : list string) : nat :=
  length (List.filter (theme_matches th) texts).

(** Index of the first text that triggers [th]. *)
Definition first_article (th : string) (texts : list string) : nat :=
  find_index (theme_matches th) texts.

(** Position of [th] in the declaration order of the table. *)
Definition decl_pos (th : string) : nat := pos th (map fst themeKeywords).

Definition texts_of (items : list jsval) : result (list string) :=
  map_result search_text items.

Definition tally_from (o : counts) (texts : list string) : counts :=
  fold_left (fun acc text => count_article text acc) texts o.

Definition rank_themes (texts : list string) : list string :=
  map fst (take 3 (sort_desc (tally_from [] texts))).

(** Lexicographic order on pairs of naturals. *)
Definition lexlt (a b : nat * nat) : Prop :=
  fst a < fst b \/ (fst a = fst b /\ snd a < snd b).

(** When a label gets its key, seen from an object whose keys are [K]
    and that is about to process [texts]: labels of [K] come first, in
    the order of [K]; the others by the first text that triggers them,
    then by declaration order. *)
Definition rank_from (K : list string) (texts : list string) (x : string) : nat * nat :=
  if decide (x ∈ K) then (0, pos x K) else (S (first_article x texts), decl_pos x).

Definition by_count_desc (a b : string * nat) : Prop := snd b <= snd a.

Definition has_count (n : nat) (e : string * nat) : bool := Nat.eqb (snd e) n.

(** The themes of the table that some text triggers, in table order. *)
Definition surviving (texts : list string) : list string :=
  List.filter (fun th => Nat.ltb 0 (occurrences th texts)) (map fst themeKeywords).

Definition is_string (v : jsval) : bool :=
  match v with
  | JStr _ => true
  | _ => false
  end.

Definition optional_string (v : jsval) : bool :=
  match v with
  | JUndefined | JNull | JStr _ => true
  | _ => false
  end.

(** Own property of an object, [undefined] elsewhere. *)
Definition own (v : jsval) (k : string) : jsval :=
  match v with
  | JObj props => lookup_own k props
  | _ => JUndefined
  end.

(** RawArticle of the data model: an object with a text [title], an
    optional text [description], a [source] object with a text [name],
    and texts [publishedAt] and [url]. *)
Definition is_raw_article (a : jsval) : bool :=
  match a with
  | JObj _ =>
      is_string (own a "title") && optional_string (own a "description") &&
      match own a "source" with
      | JObj _ => is_string (own (own a "source") "name")
      | _ => false
      end &&
      is_string (own a "publishedAt") && is_string (own a "url")
  | _ => false
  end.

(** The Headline of the data model: the projection of a raw article. *)
Definition projection (a : jsval) : headline :=
  Headline (own a "title") (own (own a "source") "name") (own a "publishedAt") (own a "url").

Definition text_of (v : jsval) : string :=
  match v with
  | JStr s => s
  | _ => ""
  end.

(** The query of lines 26-32 for a credential rendered as [key]. *)
Definition query (key : string) : list (string * string) :=
  [ ("q", "economy OR federal reserve OR inflation OR GDP OR markets");
    ("language", "en"); ("sortBy", "publishedAt"); ("pageSize", "20");
    ("apiKey", key) ].

Definition news_request (key : string) : request :=
  Request "https://newsapi.org/v2/everything" (query key).

Definition failure_label : string := "NewsAPI fetch failed:".

(** Whether [error.message] can be read: not for a thrown [undefined]
    or [null]. *)
Definition has_message (e : error) : bool :=
  match e with
  | Thrown v => negb (nullish v)
  | _ => true
  end.

(** The faults the engine raises by itself. *)
Definition engine_fault (e : error) : bool :=
  match e with
  | ReadOfNullish _ | NotCallable _ | NoPrimitive => true
  | PlatformError _ | Thrown _ => false
  end.

(** The body that reaches [structureNewsData]: the credential is
    present, the call resolves with a success status and the body
    parses. *)
Definition delivered (w : world) (env : jsval) : option jsval :=
  match get_prop env "NEWSAPI_KEY" with
  | Ret key =>
      if truthy key then
        match to_string key with
        | Ret ks =>
            match fetch w (news_request ks) with
            | Ret resp => if ok resp then
                            match json resp with
                            | Ret data => Some data
                            | Throw _ => None
                            end
                          else None
            | Throw _ => None
            end
        | Throw _ => None
        end
      else None
  | Throw _ => None
  end.

Definition article (t d : string) : jsval :=
  JObj [ ("source", JObj [("id", JNull); ("name", JStr "Wire")]);
         ("title", JStr t); ("description", JStr d);
         ("url", JStr "https://example.org/story");
         ("publishedAt", JStr "2024-01-01T00:00:00Z") ].

(** Three stories on growth, then three on inflation, then one on markets. *)
Definition growth_first : list jsval :=
  [ article "GDP surprises" ""; article "Recession odds drop" "";
    article "Expansion continues" ""; article "CPI cools" "";
    article "PCE steady" ""; article "Deflation watch" "";
    article "Bonds slide" "" ].

Definition growth_first_texts : list string :=
  [ "gdp surprises "; "recession odds drop "; "expansion continues "; "cpi cools ";
    "pce steady "; "deflation watch "; "bonds slide " ].

(** The search text as the specification words it, for comparison
    with [search_text]: title and description concatenated, then
    lowercased. *)
Definition concatenated_text (t d : string) : string := toLowerCase (t +:+ d).

Definition markets_keywords : list string :=
  ["stocks"; "equities"; "bonds"; "yields"; "volatility"].

Definition twelve : list jsval :=
  map (fun t => article t "")
      [ "Fed holds rates"; "CPI cools"; "GDP surprises"; "Jobs report due";
        "Stocks rally"; "Powell speaks"; "Prices rise"; "Recession odds drop";
        "Wages climb"; "Bonds slide"; "Yields jump"; "Labor market tight" ].

Definition env_with_key : jsval := JObj [("NEWSAPI_KEY", JStr "k123")].

Definition world_of (outcome : result response) : world :=
  World (fun _ => outcome) "2024-01-02T00:00:00.000Z".

Definition body_of (arts : list jsval) : jsval :=
  JObj [("status", JStr "ok"); ("totalResults", JNum "2"); ("articles", JArr arts)].

(** ** Vocabulary of the further properties *)

Definition is_network_call (e : event) : bool :=
  match e with
  | NetworkCall _ => true
  | _ => false
  end.

Definition is_console (e : event) : bool :=
  match e with
  | ConsoleWarn _ | ConsoleError _ _ => true
  | _ => false
  end.

(** What follows the network call made for the credential text [ks]:
    what is emitted after it and what is returned. *)
Inductive after_call (w : world) (ks : string) : prog (option summary) -> Prop :=
| call_fault e :
    fetch w (news_request ks) = Throw e -> has_message e = true ->
    after_call w ks ([ConsoleError failure_label e], Ret None)
| call_escape e :
    fetch w (news_request ks) = Throw e -> has_message e = false ->
    after_call w ks ([], Throw (ReadOfNullish "message"))
| call_not_ok resp :
    fetch w (news_request ks) = Ret resp -> ok resp = false ->
    after_call w ks
      ([ConsoleWarn ("NewsAPI returned " +:+ render (status resp))], Ret None)
| call_body_fault resp e :
    fetch w (news_request ks) = Ret resp -> ok resp = true ->
    json resp = Throw e -> has_message e = true ->
    after_call w ks ([BodyRead; ConsoleError failure_label e], Ret None)
| call_body_escape resp e :
    fetch w (news_request ks) = Ret resp -> ok resp = true ->
    json resp = Throw e -> has_message e = false ->
    after_call w ks ([BodyRead], Throw (ReadOfNullish "message"))
| call_data_fault resp data e :
    fetch w (news_request ks) = Ret resp -> ok resp = true ->
    json resp = Ret data -> structureNewsData (clock w) data = Throw e ->
    after_call w ks ([BodyRead; ConsoleError failure_label e], Ret None)
| call_result resp data r :
    fetch w (news_request ks) = Ret resp -> ok resp = true ->
    json resp = Ret data -> structureNewsData (clock w) data = Ret r ->
    after_call w ks ([BodyRead], Ret r).

(** The ways a call of [fetchNewsSentiment] can go, each with what it
    emits and returns. *)
Inductive run_shape (w : world) (env : jsval) : prog (option summary) -> Prop :=
| shape_env_fault e :
    get_prop env "NEWSAPI_KEY" = Throw e ->
    run_shape w env ([ConsoleError failure_label e], Ret None)
| shape_no_key key :
    get_prop env "NEWSAPI_KEY" = Ret key -> truthy key = false ->
    run_shape w env ([ConsoleWarn "NEWSAPI_KEY not configured"], Ret None)
| shape_key_fault key e :
    get_prop env "NEWSAPI_KEY" = Ret key -> truthy key = true ->
    to_string key = Throw e ->
    run_shape w env ([ConsoleError failure_label e], Ret None)
| shape_called key ks tr r :
    get_prop env "NEWSAPI_KEY" = Ret key -> truthy key = true ->
    to_string key = Ret ks ->
    after_call w ks (tr, r) ->
    run_shape w env (NetworkCall (news_request ks) :: tr, r).

(** Whether [a.source] reads as something that has properties. *)
Definition source_present (a : jsval) : bool :=
  match get_prop a "source" with
  | Ret src => negb (nullish src)
  | Throw _ => false
  end.

(** Whether some keyword of the table occurs in [text]. *)
Definition any_keyword (text : string) : bool := existsb (hit text) themeKeywords.

(** Whether an article can change a counter: its text has a keyword,
    or cannot be built. *)
Definition can_count (a : jsval) : bool :=
  match search_text a with
  | Ret text => any_keyword text
  | Throw _ => true
  end.

Definition fed_article : jsval :=
  JObj [ ("title", JStr "Fed holds interest rates steady");
         ("description", JStr "Powell signals caution");
         ("source", JObj [("name", JStr "X")]);
         ("publishedAt", JStr "2024-01-01T00:00:00Z");
         ("url", JStr "u1") ].

Definition fed_summary : summary :=
  Summary 1 ["monetary_policy"]
    [Headline (JStr "Fed holds interest rates steady") (JStr "X")
              (JStr "2024-01-01T00:00:00Z") (JStr "u1")]
    "2024-01-02T00:00:00.000Z".

(** * Verification *)

(** ** Positions in lists *)

Section find_index.
Context {A : Type}.
Implicit Types (P Q : A -> bool) (l : list A).

Lemma find_index_lt P l : find_index P l < length l <-> existsb P l = true.
Proof.
  induction l as [|x l IH]; simpl.
  - split; [lia | discriminate].
  - destruct (P x); simpl; [split; [done | lia]|].
    rewrite <- IH. lia.
Qed.

Lemma find_index_lookup P l i x :
  l !! i = Some x -> P x = true ->
  (forall j y, j < i -> l !! j = Some y -> P y = false) ->
  find_index P l = i.
Proof.
  revert i. induction l as [|a l IH]; intros i Hi HP Hmin; [done|].
  destruct i as [|i]; simpl in *.
  - injection Hi as ->. by rewrite HP.
  - rewrite (Hmin 0 a) by (done || lia).
    f_equal. apply IH; [done..|].
    intros j y Hj Hy. apply (Hmin (S j) y); [lia | done].
Qed.

Lemma find_index_app P l1 l2 :
  find_index P (l1 ++ l2) =
  if existsb P l1 then find_index P l1 else length l1 + find_index P l2.
Proof.
  induction l1 as [|a l1 IH]; simpl; [done|].
  destruct (P a); simpl; [done|]. rewrite IH. by destruct (existsb P l1).
Qed.

Lemma find_index_take P l n :
  find_index P (take n l) < length (take n l) ->
  find_index P (take n l) = find_index P l.
Proof.
  revert n. induction l as [|a l IH]; intros [|n]; simpl; try lia.
  destruct (P a); [done|]. intros H. f_equal. apply IH. lia.
Qed.

(** Filtering keeps the relative position of what it keeps. *)
Lemma find_index_filter_order P1 P2 Q l :
  (forall a, a ∈ l -> P1 a = true -> Q a = true) ->
  (forall a, a ∈ l -> P2 a = true -> Q a = true) ->
  find_index P1 (List.filter Q l) < find_index P2 (List.filter Q l) <->
  find_index P1 l < find_index P2 l.
Proof.
  induction l as [|a l IH]; intros H1 H2; simpl; [done|].
  assert (IH' := IH (fun b Hb => H1 b (list_elem_of_further _ _ _ Hb))
                    (fun b Hb => H2 b (list_elem_of_further _ _ _ Hb))).
  assert (Ha : a ∈ a :: l) by left.
  destruct (Q a) eqn:HQ; simpl.
  - destruct (P1 a), (P2 a); lia.
  - destruct (P1 a) eqn:E1; [by rewrite (H1 a Ha E1) in HQ|].
    destruct (P2 a) eqn:E2; [by rewrite (H2 a Ha E2) in HQ|].
    lia.
Qed.
End find_index.

Lemma find_index_map {A B : Type} (f : A -> B) (P : B -> bool) (l : list A) :
  find_index P (map f l) = find_index (fun a => P (f a)) l.
Proof. induction l as [|a l IH]; simpl; [done|]. by rewrite IH. Qed.

Lemma existsb_eqb_elem_of (x : string) (l : list string) :
  existsb (String.eqb x) l = true <-> x ∈ l.
Proof.
  rewrite existsb_exists. split.
  - intros (y & Hy & ->%String.eqb_eq). by apply list_elem_of_In.
  - intros H. exists x. split; [by apply list_elem_of_In | apply String.eqb_refl].
Qed.

Lemma pos_lt x l : pos x l < length l <-> x ∈ l.
Proof. unfold pos. by rewrite find_index_lt, existsb_eqb_elem_of. Qed.

Lemma pos_lookup x l i : NoDup l -> l !! i = Some x -> pos x l = i.
Proof.
  intros Hnd Hi. apply (find_index_lookup _ _ _ x); [done | apply String.eqb_refl|].
  intros j y Hj Hy. apply String.eqb_neq. intros <-.
  assert (i = j) by (eapply NoDup_lookup; eauto). lia.
Qed.

Lemma pos_app x l1 l2 :
  pos x (l1 ++ l2) = if decide (x ∈ l1) then pos x l1 else length l1 + pos x l2.
Proof.
  unfold pos. rewrite find_index_app.
  destruct (existsb (String.eqb x) l1) eqn:E.
  - apply existsb_eqb_elem_of in E. by rewrite decide_True.
  - rewrite decide_False; [done|]. intros H%existsb_eqb_elem_of. congruence.
Qed.

(** ** The [themeCounts] object *)

Lemma obj_get_elem_of th n o : obj_get th o = Some n -> (th, n) ∈ o.
Proof.
  induction o as [|[k m] o IH]; simpl; [discriminate|].
  destruct (String.eqb_spec th k) as [->|Hne].
  - intros [= ->]. left.
  - intros H. right. auto.
Qed.

Lemma elem_of_obj_get th n o : NoDup (keys o) -> (th, n) ∈ o -> obj_get th o = Some n.
Proof.
  induction o as [|[k m] o IH]; simpl; intros Hnd Hin.
  - by apply elem_of_nil in Hin.
  - apply NoDup_cons in Hnd as [Hk Hnd].
    apply elem_of_cons in Hin as [[= -> ->]|Hin].
    + by rewrite String.eqb_refl.
    + destruct (String.eqb_spec th k) as [->|Hne]; [|auto].
      exfalso. apply Hk. change k with (fst (k, n)). by apply list_elem_of_fmap_2.
Qed.

Lemma keys_obj_set th n o :
  keys (obj_set th n o) = if decide (th ∈ keys o) then keys o else keys o ++ [th].
Proof.
  induction o as [|[k m] o IH].
  - destruct (decide (th ∈ keys [])) as [Hin|_]; [|done].
    by apply elem_of_nil in Hin.
  - cbn [obj_set]. destruct (String.eqb_spec th k) as [->|Hne].
    + rewrite decide_True; [done | left].
    + change (keys ((k, m) :: obj_set th n o)) with (k :: keys (obj_set th n o)).
      change (keys ((k, m) :: o)) with (k :: keys o).
      rewrite IH. destruct (decide (th ∈ keys o)) as [Hin|Hin].
      * rewrite decide_True; [done | by right].
      * rewrite decide_False; [done|]. rewrite not_elem_of_cons. done.
Qed.

Lemma obj_get_obj_set th th' n o :
  obj_get th' (obj_set th n o) = if decide (th' = th) then Some n else obj_get th' o.
Proof.
  induction o as [|[k m] o IH]; cbn [obj_set obj_get].
  - destruct (String.eqb_spec th' th) as [->|Hne]; case_decide; done.
  - destruct (String.eqb_spec th k) as [->|Hne]; cbn [obj_get].
    + destruct (String.eqb_spec th' k) as [->|Hne']; case_decide; done.
    + rewrite IH. destruct (String.eqb_spec th' k) as [->|Hne']; [|done].
      by rewrite decide_False.
Qed.

Lemma keys_bump th o :
  keys (bump th o) = if decide (th ∈ keys o) then keys o else keys o ++ [th].
Proof. apply keys_obj_set. Qed.

Lemma obj_get_bump th th' o :
  obj_get th' (bump th o) =
  if decide (th' = th) then Some (default 0 (obj_get th o) + 1) else obj_get th' o.
Proof. apply obj_get_obj_set. Qed.

Lemma counts_wf_nil : counts_wf [].
Proof. split; [constructor | discriminate]. Qed.

Lemma counts_wf_bump th o : counts_wf o -> counts_wf (bump th o).
Proof.
  intros [Hnd Hpos]. split.
  - rewrite keys_bump. case_decide; [done|].
    apply NoDup_app. repeat split; [done | | apply NoDup_singleton].
    intros x Hx ->%list_elem_of_singleton. done.
  - intros th' n. rewrite obj_get_bump. case_decide.
    + intros [= <-]. lia.
    + apply Hpos.
Qed.

(** ** One article against the keyword table *)

Lemma new_in_true K th : new_in K th = true <-> th ∉ K.
Proof.
  unfold new_in. rewrite negb_true_iff, <- not_true_iff_false.
  by rewrite existsb_eqb_elem_of.
Qed.

Lemma matches_in_key tbl th text : matches_in tbl th text = true -> th ∈ map fst tbl.
Proof.
  unfold matches_in. rewrite existsb_exists.
  intros (e & He & [->%String.eqb_eq _]%andb_true_iff).
  by apply list_elem_of_fmap_2, list_elem_of_In.
Qed.

Section table.
Variable tbl : list (string * list string).
Variable text : string.

Lemma elem_of_matched th : th ∈ matched tbl text <-> matches_in tbl th text = true.
Proof.
  unfold matched, matches_in. rewrite existsb_exists. split.
  - intros (e & -> & He)%list_elem_of_fmap_1.
    apply list_elem_of_In, filter_In in He as [He Hh].
    exists e. by rewrite String.eqb_refl, Hh.
  - intros (e & He & [->%String.eqb_eq Hh]%andb_true_iff).
    apply list_elem_of_fmap_2, list_elem_of_In, filter_In. done.
Qed.

Lemma wf_count_fold o : counts_wf o -> counts_wf (fold_left (count_theme text) tbl o).
Proof.
  revert o. induction tbl as [|e t IH]; intros o Hwf; simpl; [done|].
  apply IH. unfold count_theme. destruct (some_keyword text (snd e)); [|done].
  by apply counts_wf_bump.
Qed.

Lemma keys_count_fold o :
  NoDup (map fst tbl) ->
  keys (fold_left (count_theme text) tbl o) =
  keys o ++ List.filter (new_in (keys o)) (matched tbl text).
Proof.
  unfold matched. revert o.
  induction tbl as [|e t IH]; intros o Hnd; simpl.
  - by rewrite app_nil_r.
  - apply NoDup_cons in Hnd as [He Hnd].
    rewrite (IH _ Hnd). unfold count_theme, hit at 2.
    destruct (some_keyword text (snd e)) eqn:Hhit; [|done].
    rewrite keys_bump. simpl. destruct (decide (fst e ∈ keys o)) as [Hin|Hin].
    + assert (new_in (keys o) (fst e) = false) as ->; [|done].
      apply not_true_iff_false. rewrite new_in_true. tauto.
    + assert (new_in (keys o) (fst e) = true) as -> by by apply new_in_true.
      rewrite <- app_assoc. simpl. do 2 f_equal.
      apply filter_ext_in. intros th Hth%list_elem_of_In.
      assert (th <> fst e).
      { intros ->. apply He. apply list_elem_of_fmap_1 in Hth as (e' & -> & He').
        apply list_elem_of_In, filter_In in He' as [He' _].
        by apply list_elem_of_fmap_2, list_elem_of_In. }
      unfold new_in. f_equal. rewrite existsb_app. simpl.
      rewrite (proj2 (String.eqb_neq th (fst e))) by done.
      by rewrite !orb_false_r.
Qed.

Lemma obj_get_count_fold th o :
  NoDup (map fst tbl) ->
  default 0 (obj_get th (fold_left (count_theme text) tbl o)) =
  default 0 (obj_get th o) + (if matches_in tbl th text then 1 else 0).
Proof.
  revert o. induction tbl as [|e t IH]; intros o Hnd; [simpl; lia|].
  apply NoDup_cons in Hnd as [He Hnd].
  change (matches_in (e :: t) th text)
    with (String.eqb th (fst e) && hit text e || matches_in t th text).
  cbn [fold_left]. rewrite (IH _ Hnd). unfold count_theme, hit.
  destruct (String.eqb_spec th (fst e)) as [->|Hne]; simpl.
  - assert (matches_in t (fst e) text = false) as ->.
    { apply not_true_iff_false. intros H%matches_in_key. done. }
    destruct (some_keyword text (snd e)); simpl; [|lia].
    rewrite obj_get_bump, decide_True by done. simpl. lia.
  - destruct (some_keyword text (snd e)); simpl; [|done].
    by rewrite obj_get_bump, decide_False.
Qed.
End table.

Lemma NoDup_themes : NoDup (map fst themeKeywords).
Proof. by apply (bool_decide_unpack _). Qed.

(** ** All articles: counts and insertion order *)

Lemma forEach_articles_texts items o :
  forEach_articles items o = let* texts := texts_of items in Ret (tally_from o texts).
Proof.
  unfold texts_of. revert o.
  induction items as [|a items IH]; intros o; simpl; [done|].
  destruct (search_text a) as [text|e]; simpl; [|done].
  rewrite IH. by destruct (map_result search_text items).
Qed.

Lemma extractThemes_texts items texts :
  texts_of items = Ret texts -> extractThemes (JArr items) = Ret (rank_themes texts).
Proof. intros H. unfold extractThemes. by rewrite forEach_articles_texts, H. Qed.

Lemma wf_tally_from texts o : counts_wf o -> counts_wf (tally_from o texts).
Proof.
  revert o. induction texts as [|t ts IH]; intros o Hwf; simpl; [done|].
  apply IH. by apply wf_count_fold.
Qed.

Lemma obj_get_tally_from th texts o :
  default 0 (obj_get th (tally_from o texts)) =
  default 0 (obj_get th o) + occurrences th texts.
Proof.
  revert o. induction texts as [|t ts IH]; intros o; [unfold occurrences; simpl; lia|].
  cbn [tally_from fold_left]. fold (tally_from (count_article t o) ts).
  rewrite IH. unfold count_article. rewrite obj_get_count_fold by apply NoDup_themes.
  fold (theme_matches th t). unfold occurrences. cbn [List.filter].
  destruct (theme_matches th t); cbn [length]; lia.
Qed.

(** An entry of the final object is a theme with its number of
    occurrences, which is positive. *)
Lemma elem_of_tally th n texts :
  (th, n) ∈ tally_from [] texts <-> n = occurrences th texts /\ 0 < n.
Proof.
  pose proof (wf_tally_from texts [] counts_wf_nil) as [Hnd Hpos].
  pose proof (obj_get_tally_from th texts []) as Hc. simpl in Hc.
  split.
  - intros Hin%elem_of_obj_get; [|done].
    rewrite Hin in Hc. simpl in Hc. split; [done | eauto].
  - intros [-> Hn]. apply obj_get_elem_of.
    destruct (obj_get th (tally_from [] texts)) as [m|]; simpl in Hc; [by subst | lia].
Qed.

Lemma elem_of_keys_tally th texts :
  th ∈ keys (tally_from [] texts) <-> 0 < occurrences th texts.
Proof.
  split.
  - intros ([k n] & -> & Hin)%list_elem_of_fmap_1.
    apply elem_of_tally in Hin as [-> ?]. done.
  - intros H. change th with (fst (th, occurrences th texts)).
    apply list_elem_of_fmap_2, elem_of_tally. done.
Qed.

Lemma unique_entry {B : Type} (tbl : list (string * B)) e e' :
  NoDup (map fst tbl) -> e ∈ tbl -> e' ∈ tbl -> fst e = fst e' -> e = e'.
Proof.
  induction tbl as [|a tbl IH]; simpl; intros Hnd He He' Heq.
  - by apply elem_of_nil in He.
  - apply NoDup_cons in Hnd as [Ha Hnd].
    apply elem_of_cons in He as [->|He]; apply elem_of_cons in He' as [->|He']; auto.
    + exfalso. apply Ha. rewrite Heq. by apply list_elem_of_fmap_2.
    + exfalso. apply Ha. rewrite <- Heq. by apply list_elem_of_fmap_2.
Qed.

Lemma elem_of_new K t x :
  x ∈ List.filter (new_in K) (matched themeKeywords t) <->
  (x ∉ K) /\ theme_matches x t = true.
Proof.
  rewrite list_elem_of_In, filter_In, <- list_elem_of_In, elem_of_matched, new_in_true.
  unfold theme_matches. tauto.
Qed.

Lemma pos_matched_order t x y :
  theme_matches x t = true -> theme_matches y t = true ->
  pos x (matched themeKeywords t) < pos y (matched themeKeywords t) <->
  decl_pos x < decl_pos y.
Proof.
  intros Hx Hy. unfold pos, matched, decl_pos, pos. rewrite !find_index_map.
  apply find_index_filter_order.
  - intros e He ->%String.eqb_eq.
    apply elem_of_matched, list_elem_of_fmap_1 in Hx as (e' & Heq & He').
    apply list_elem_of_In, filter_In in He' as [He' Hh].
    apply list_elem_of_In in He'.
    by rewrite (unique_entry themeKeywords e e' NoDup_themes He He' Heq).
  - intros e He ->%String.eqb_eq.
    apply elem_of_matched, list_elem_of_fmap_1 in Hy as (e' & Heq & He').
    apply list_elem_of_In, filter_In in He' as [He' Hh].
    apply list_elem_of_In in He'.
    by rewrite (unique_entry themeKeywords e e' NoDup_themes He He' Heq).
Qed.

Lemma pos_new_order K t x y :
  x ∉ K -> y ∉ K -> theme_matches x t = true -> theme_matches y t = true ->
  pos x (List.filter (new_in K) (matched themeKeywords t)) <
  pos y (List.filter (new_in K) (matched themeKeywords t)) <->
  decl_pos x < decl_pos y.
Proof.
  intros HxK HyK Hx Hy. rewrite <- (pos_matched_order t x y Hx Hy).
  apply find_index_filter_order.
  - intros a _ ->%String.eqb_eq. by apply new_in_true.
  - intros a _ ->%String.eqb_eq. by apply new_in_true.
Qed.

(** How the rank of a label changes when the first text is processed. *)
Lemma rank_step K t ts x :
  let N := List.filter (new_in K) (matched themeKeywords t) in
  (x ∈ K /\ pos x K < length K /\
   rank_from (K ++ N) ts x = (0, pos x K) /\
   rank_from K (t :: ts) x = (0, pos x K)) \/
  ((x ∉ K) /\ theme_matches x t = true /\
   rank_from (K ++ N) ts x = (0, length K + pos x N) /\
   rank_from K (t :: ts) x = (1, decl_pos x)) \/
  ((x ∉ K) /\ theme_matches x t = false /\
   rank_from (K ++ N) ts x = (S (first_article x ts), decl_pos x) /\
   rank_from K (t :: ts) x = (S (S (first_article x ts)), decl_pos x)).
Proof.
  intros N. unfold rank_from, first_article. cbn [find_index].
  destruct (decide (x ∈ K)) as [HK|HK].
  - left. rewrite decide_True by (apply elem_of_app; auto).
    rewrite pos_app, decide_True by done. by rewrite pos_lt.
  - right. destruct (theme_matches x t) eqn:Hm.
    + left. assert (x ∈ N) by by apply elem_of_new.
      rewrite decide_True by (apply elem_of_app; auto).
      by rewrite pos_app, decide_False.
    + right. rewrite decide_False; [done|].
      rewrite elem_of_app. intros [?|[_ ?]%elem_of_new]; [done | congruence].
Qed.

(** Keys of the final object are ordered by rank. *)
Lemma order_tally_from texts o x y :
  x ∈ keys (tally_from o texts) -> y ∈ keys (tally_from o texts) ->
  pos x (keys (tally_from o texts)) < pos y (keys (tally_from o texts)) <->
  lexlt (rank_from (keys o) texts x) (rank_from (keys o) texts y).
Proof.
  revert o. induction texts as [|t ts IH]; intros o Hx Hy.
  - simpl in *. unfold rank_from. rewrite !decide_True by done.
    unfold lexlt. simpl. lia.
  - cbn [tally_from fold_left] in *. fold (tally_from (count_article t o) ts) in *.
    rewrite (IH _ Hx Hy). unfold count_article.
    rewrite keys_count_fold by apply NoDup_themes.
    destruct (rank_step (keys o) t ts x) as [(Hx1 & Hx2 & -> & ->)|[(Hx1 & Hx2 & -> & ->)|(Hx1 & Hx2 & -> & ->)]];
    destruct (rank_step (keys o) t ts y) as [(Hy1 & Hy2 & -> & ->)|[(Hy1 & Hy2 & -> & ->)|(Hy1 & Hy2 & -> & ->)]];
    unfold lexlt; cbn [fst snd]; try lia.
    pose proof (pos_new_order (keys o) t x y Hx1 Hy1 Hx2 Hy2). lia.
Qed.

(** ** The sort *)

Lemma insert_desc_perm a l : insert_desc a l ≡ₚ a :: l.
Proof.
  induction l as [|b l IH]; simpl; [done|].
  destruct (Nat.ltb (snd a) (snd b)); [|done].
  rewrite IH. apply Permutation_swap.
Qed.

Lemma sort_desc_perm l : sort_desc l ≡ₚ l.
Proof.
  induction l as [|a l IH]; simpl; [done|].
  by rewrite insert_desc_perm, IH.
Qed.

Lemma insert_desc_sorted a l :
  StronglySorted by_count_desc l -> StronglySorted by_count_desc (insert_desc a l).
Proof.
  induction 1 as [|b l Hl IH Hb]; simpl.
  - repeat constructor.
  - destruct (Nat.ltb_spec (snd a) (snd b)) as [Hlt|Hge].
    + constructor; [done|]. rewrite insert_desc_perm.
      constructor; [unfold by_count_desc; lia | done].
    + constructor; [by constructor|].
      constructor; [done|].
      eapply Forall_impl; [exact Hb|]. unfold by_count_desc. intros; lia.
Qed.

Lemma sort_desc_sorted l : StronglySorted by_count_desc (sort_desc l).
Proof.
  induction l as [|a l IH]; simpl; [constructor|]. by apply insert_desc_sorted.
Qed.

(** Stability: entries with the same count stay in their order. *)
Lemma insert_desc_stable n a l :
  List.filter (has_count n) (insert_desc a l) = List.filter (has_count n) (a :: l).
Proof.
  induction l as [|b l IH]; [done|].
  cbn [insert_desc]. destruct (Nat.ltb_spec (snd a) (snd b)) as [Hlt|Hge]; [|done].
  cbn [List.filter] in *. rewrite IH. unfold has_count.
  destruct (Nat.eqb_spec (snd a) n), (Nat.eqb_spec (snd b) n); try done. lia.
Qed.

Lemma sort_desc_stable n l :
  List.filter (has_count n) (sort_desc l) = List.filter (has_count n) l.
Proof.
  induction l as [|a l IH]; [done|].
  cbn [sort_desc]. rewrite insert_desc_stable. cbn [List.filter]. by rewrite IH.
Qed.

Lemma StronglySorted_lookup {A : Type} (R : relation A) l i j x y :
  StronglySorted R l -> i < j -> l !! i = Some x -> l !! j = Some y -> R x y.
Proof.
  intros Hs. revert i j. induction Hs as [|a l Hl IH Ha]; intros i j Hij Hi Hj; [done|].
  destruct j as [|j]; [lia|]. destruct i as [|i]; simpl in *.
  - injection Hi as <-. rewrite Forall_forall in Ha.
    apply Ha. by eapply list_elem_of_lookup_2.
  - apply (IH i j); [lia | done..].
Qed.

(** ** The ranked themes *)

Lemma elem_of_sorted_tally e texts :
  e ∈ sort_desc (tally_from [] texts) <->
  snd e = occurrences (fst e) texts /\ 0 < snd e.
Proof. rewrite sort_desc_perm. destruct e as [th n]. apply elem_of_tally. Qed.

Lemma NoDup_sorted_tally texts : NoDup (keys (sort_desc (tally_from [] texts))).
Proof.
  unfold keys. rewrite sort_desc_perm.
  apply (wf_tally_from texts [] counts_wf_nil).
Qed.

Lemma rank_themes_take texts :
  rank_themes texts = take 3 (keys (sort_desc (tally_from [] texts))).
Proof. unfold rank_themes, keys. apply (fmap_take fst). Qed.

Lemma rank_themes_lookup texts i t :
  rank_themes texts !! i = Some t <->
  i < 3 /\ sort_desc (tally_from [] texts) !! i = Some (t, occurrences t texts).
Proof.
  unfold rank_themes. change (map fst ?l) with (fst <$> l).
  rewrite list_lookup_fmap_Some. split.
  - intros ([th n] & -> & [He Hi]%lookup_take_Some). split; [done|].
    pose proof (list_elem_of_lookup_2 _ _ _ He) as [Hn _]%elem_of_sorted_tally.
    simpl in *. by subst n.
  - intros [Hi He]. exists (t, occurrences t texts).
    by rewrite lookup_take_lt.
Qed.

Lemma rank_themes_NoDup texts : NoDup (rank_themes texts).
Proof.
  rewrite rank_themes_take.
  apply (sublist_NoDup _ _ (NoDup_sorted_tally texts)), sublist_take.
Qed.

Lemma occurrences_pos_key th texts :
  0 < occurrences th texts -> th ∈ map fst themeKeywords.
Proof.
  unfold occurrences. intros Hpos.
  destruct (List.filter (theme_matches th) texts) as [|text l] eqn:E; [simpl in Hpos; lia|].
  assert (In text (List.filter (theme_matches th) texts)) as [_ Hm]%filter_In
    by (rewrite E; by left).
  by apply matches_in_key in Hm.
Qed.

Lemma rank_themes_elem texts t :
  t ∈ rank_themes texts -> t ∈ map fst themeKeywords /\ 0 < occurrences t texts.
Proof.
  intros [i [_ Hi]%rank_themes_lookup]%list_elem_of_lookup_1.
  apply list_elem_of_lookup_2, elem_of_sorted_tally in Hi as [_ Hpos]. simpl in Hpos.
  split; [|done]. by apply (occurrences_pos_key t texts).
Qed.

Lemma rank_themes_sorted texts i j t1 t2 :
  rank_themes texts !! i = Some t1 -> rank_themes texts !! j = Some t2 -> i < j ->
  occurrences t2 texts <= occurrences t1 texts.
Proof.
  intros [_ H1]%rank_themes_lookup [_ H2]%rank_themes_lookup Hij.
  apply (StronglySorted_lookup by_count_desc _ i j _ _ (sort_desc_sorted _) Hij H1 H2).
Qed.

Lemma pos_rank_themes texts t :
  t ∈ rank_themes texts ->
  pos t (rank_themes texts) =
  find_index (fun e => String.eqb t (fst e)) (sort_desc (tally_from [] texts)).
Proof.
  intros Hin. rewrite <- (find_index_map fst (String.eqb t)).
  fold (keys (sort_desc (tally_from [] texts))).
  apply pos_lt in Hin. rewrite rank_themes_take in *.
  by apply find_index_take.
Qed.

Lemma pos_tie_order texts t1 t2 :
  t1 ∈ rank_themes texts -> t2 ∈ rank_themes texts ->
  occurrences t1 texts = occurrences t2 texts ->
  pos t1 (rank_themes texts) < pos t2 (rank_themes texts) <->
  first_article t1 texts < first_article t2 texts \/
  (first_article t1 texts = first_article t2 texts /\ decl_pos t1 < decl_pos t2).
Proof.
  intros H1 H2 Heq. rewrite !pos_rank_themes by done.
  set (n := occurrences t1 texts).
  assert (Hkey : forall t, t ∈ rank_themes texts -> t ∈ keys (tally_from [] texts)).
  { intros t [_ Ht]%rank_themes_elem. by apply elem_of_keys_tally. }
  rewrite <- (find_index_filter_order _ _ (has_count n)).
  - rewrite sort_desc_stable, find_index_filter_order.
    + rewrite <- (find_index_map fst (String.eqb t1)), <- (find_index_map fst (String.eqb t2)).
      fold (keys (tally_from [] texts)).
      fold (pos t1 (keys (tally_from [] texts))) (pos t2 (keys (tally_from [] texts))).
      rewrite order_tally_from by auto.
      unfold rank_from, lexlt. rewrite !decide_False by apply not_elem_of_nil.
      cbn [fst snd]. lia.
    + intros [th m] [-> _]%elem_of_tally ->%String.eqb_eq. apply Nat.eqb_refl.
    + intros [th m] [-> _]%elem_of_tally ->%String.eqb_eq.
      unfold has_count, n. simpl. rewrite Heq. apply Nat.eqb_refl.
  - intros [th m] [Hm _]%elem_of_sorted_tally ->%String.eqb_eq.
    unfold has_count. simpl in *. subst m. apply Nat.eqb_refl.
  - intros [th m] [Hm _]%elem_of_sorted_tally ->%String.eqb_eq.
    unfold has_count, n. simpl in *. subst m. rewrite Heq. apply Nat.eqb_refl.
Qed.

Lemma elem_of_surviving th texts : th ∈ surviving texts <-> 0 < occurrences th texts.
Proof.
  unfold surviving. rewrite list_elem_of_In, filter_In, <- list_elem_of_In, Nat.ltb_lt.
  split; [tauto|]. intros H. split; [|done]. by apply (occurrences_pos_key th texts).
Qed.

Lemma length_tally texts : length (tally_from [] texts) = length (surviving texts).
Proof.
  rewrite <- (length_fmap fst (tally_from [] texts)). apply Permutation_length.
  apply NoDup_Permutation.
  - apply (wf_tally_from texts [] counts_wf_nil).
  - unfold surviving. apply NoDup_ListNoDup, List.NoDup_filter, NoDup_ListNoDup, NoDup_themes.
  - intros th. by rewrite elem_of_surviving, <- elem_of_keys_tally.
Qed.

Lemma rank_themes_length texts :
  length (rank_themes texts) = min 3 (length (surviving texts)).
Proof.
  unfold rank_themes. rewrite length_map, length_take.
  by rewrite (Permutation_length (sort_desc_perm _)), length_tally.
Qed.

Lemma rank_themes_complete texts th :
  0 < occurrences th texts -> exists k,
    sort_desc (tally_from [] texts) !! k = Some (th, occurrences th texts).
Proof.
  intros Hpos. apply list_elem_of_lookup_1, elem_of_sorted_tally. done.
Qed.

(** What is left out never has more occurrences than what is returned. *)
Lemma rank_themes_top texts th t :
  0 < occurrences th texts -> th ∉ rank_themes texts -> t ∈ rank_themes texts ->
  occurrences th texts <= occurrences t texts.
Proof.
  intros [k Hk]%rank_themes_complete Hout [i [Hi Ht]%rank_themes_lookup]%list_elem_of_lookup_1.
  assert (3 <= k).
  { destruct (decide (k < 3)) as [Hlt|]; [|lia]. exfalso. apply Hout.
    eapply list_elem_of_lookup_2, rank_themes_lookup. eauto. }
  assert (i < k) as Hik by lia.
  apply (StronglySorted_lookup by_count_desc _ i k _ _ (sort_desc_sorted _) Hik Ht Hk).
Qed.

Lemma rank_themes_nil texts :
  (forall th, occurrences th texts = 0) -> rank_themes texts = [].
Proof.
  intros H. destruct (rank_themes texts) as [|t l] eqn:E; [done|].
  assert (t ∈ rank_themes texts) as [_ Hpos]%rank_themes_elem by (rewrite E; left).
  rewrite H in Hpos. lia.
Qed.

(** ** Values and conversions *)

Lemma render_zero n : render n = "0" -> n = 0.
Proof.
  unfold render. intros H.
  rewrite <- (Unsigned.of_to n).
  destruct (Nat.to_uint n) as [|d|d|d|d|d|d|d|d|d|d] eqn:E; [done|..];
    apply (f_equal NilZero.uint_of_string) in H;
    rewrite NilZero.usu in H by done;
    change (NilZero.uint_of_string "0") with (Some (Decimal.D0 Decimal.Nil)) in H;
    by injection H as ->.
Qed.

Lemma map_result_length {A B : Type} (f : A -> result B) l ys :
  map_result f l = Ret ys -> length ys = length l.
Proof.
  revert ys. induction l as [|x l IH]; simpl; intros ys.
  - by intros [= <-].
  - destruct (f x); simpl; [|done]. destruct (map_result f l); simpl; [|done].
    intros [= <-]. simpl. f_equal. by apply IH.
Qed.

Lemma map_result_throw {A B : Type} (f : A -> result B) l x e :
  x ∈ l -> f x = Throw e -> exists e', map_result f l = Throw e'.
Proof.
  induction 1 as [x l|x y l Hin IH]; intros Hx; simpl.
  - rewrite Hx. simpl. eauto.
  - destruct (f y); simpl; [|eauto].
    destruct (IH Hx) as [e' ->]. simpl. eauto.
Qed.

Lemma map_result_total {A B : Type} (f : A -> result B) (g : A -> B) l :
  Forall (fun x => f x = Ret (g x)) l -> map_result f l = Ret (map g l).
Proof.
  induction 1 as [|x l Hx _ IH]; simpl; [done|]. by rewrite Hx, IH.
Qed.

(** ** Articles as the provider documents them *)

Lemma raw_article_headline a : is_raw_article a = true -> headline_of a = Ret (projection a).
Proof.
  destruct a as [| | | | | |props]; try discriminate. unfold is_raw_article.
  rewrite !andb_true_iff. intros [[[_ Hs] _] _].
  unfold headline_of, projection. simpl in *.
  by destruct (lookup_own "source" props).
Qed.

Lemma raw_article_text a :
  is_raw_article a = true ->
  search_text a =
  Ret (toLowerCase (text_of (own a "title") +:+ " " +:+ text_of (own a "description"))).
Proof.
  destruct a as [| | | | | |props]; try discriminate. unfold is_raw_article.
  rewrite !andb_true_iff. intros [[[[Ht Hd] _] _] _].
  unfold search_text. simpl in *.
  destruct (lookup_own "title" props); try discriminate.
  destruct (lookup_own "description" props) as [| | | |d| |]; try discriminate; simpl; try done.
  by destruct d.
Qed.

Lemma raw_articles_texts arts :
  Forall (fun a => is_raw_article a = true) arts ->
  texts_of arts =
  Ret (map (fun a => toLowerCase (text_of (own a "title") +:+ " " +:+
                                  text_of (own a "description"))) arts).
Proof.
  intros H. apply map_result_total. eapply Forall_impl; [exact H|].
  intros a. apply raw_article_text.
Qed.

(** ** structureNewsData *)

Lemma structureNewsData_array now raw arts :
  get_prop raw "articles" = Ret (JArr arts) -> arts <> [] ->
  structureNewsData now raw =
  let* themes := extractThemes (JArr (take 10 arts)) in
  let* hs := map_result headline_of (take 10 arts) in
  Ret (Some (Summary (length (take 10 arts)) themes hs now)).
Proof.
  intros Hg Hne. unfold structureNewsData. rewrite Hg. simpl.
  destruct (String.eqb_spec (render (length arts)) "0") as [Hz|_]; [|done].
  apply render_zero in Hz. by destruct arts.
Qed.

Lemma structureNewsData_absent now raw v :
  get_prop raw "articles" = Ret v -> truthy v = false \/ v = JArr [] ->
  structureNewsData now raw = Ret None.
Proof.
  intros Hg [Hv| ->]; unfold structureNewsData; rewrite Hg; simpl; [|done].
  by rewrite Hv.
Qed.

Lemma structureNewsData_present now raw s :
  structureNewsData now raw = Ret (Some s) ->
  exists arts texts hs,
    get_prop raw "articles" = Ret (JArr arts) /\ arts <> [] /\
    texts_of (take 10 arts) = Ret texts /\
    map_result headline_of (take 10 arts) = Ret hs /\
    s = Summary (length (take 10 arts)) (rank_themes texts) hs now.
Proof.
  unfold structureNewsData.
  destruct (get_prop raw "articles") as [v|e] eqn:Hg; simpl; [|done].
  destruct (truthy v) eqn:Hv; simpl; [|done].
  destruct v as [| |b|r|str|arts|props]; try done.
  - simpl. by destruct (String.eqb _ _).
  - cbn [get_prop bind String.eqb Ascii.eqb Bool.eqb strict_eq_zero call_slice].
    unfold extractThemes. rewrite forEach_articles_texts.
    destruct (String.eqb (render (length arts)) "0") eqn:Hz; [done|].
    destruct (texts_of (take 10 arts)) as [texts|e] eqn:Ht; cbn [bind]; [|done].
    unfold call_map.
    destruct (map_result headline_of (take 10 arts)) as [hs|e] eqn:Hh; cbn [bind]; [|done].
    intros [= <-]. exists arts, texts, hs. repeat split; try done.
    intros ->. done.
  - cbn [get_prop bind]. by destruct (strict_eq_zero (lookup_own "length" props)).
Qed.

(** ** Faults of the engine *)

Lemma get_prop_fault v k e : get_prop v k = Throw e -> engine_fault e = true.
Proof. destruct v; simpl; try done; by intros [= <-]. Qed.

Lemma to_string_fault v e : to_string v = Throw e -> engine_fault e = true.
Proof.
  revert v e. fix go 1. intros [| |b|r|str|items|props] e; simpl; try done.
  - by destruct b.
  - induction items as [|x rest IH]; [done|].
    destruct (if nullish x then Ret "" else to_string x) as [sx|ex] eqn:Hx; cbn [bind].
    + destruct rest as [|y rest']; [done|].
      destruct ((fix join (l : list jsval) : result string :=
                   match l with
                   | [] => Ret ""
                   | x :: rest =>
                       let* s := if nullish x then Ret "" else to_string x in
                       match rest with
                       | [] => Ret s
                       | _ :: _ => let* r := join rest in Ret (s +:+ "," +:+ r)
                       end
                   end) (y :: rest')) as [sr|er] eqn:Hr; cbn [bind]; [done|].
      intros [= <-]. by apply IH.
    + intros [= <-]. destruct (nullish x); [done|]. by apply (go x).
  - destruct (has_own "toString" props); [|done]. by intros [= <-].
Qed.

Lemma search_text_fault a e : search_text a = Throw e -> engine_fault e = true.
Proof.
  unfold search_text.
  destruct (get_prop a "title") as [t|e1] eqn:Ht; cbn [bind];
    [|intros [= <-]; by apply (get_prop_fault a "title")].
  destruct (to_string t) as [l|e2] eqn:Hl; cbn [bind];
    [|intros [= <-]; by apply (to_string_fault t)].
  destruct (get_prop a "description") as [d|e3] eqn:Hd; cbn [bind];
    [|intros [= <-]; by apply (get_prop_fault a "description")].
  destruct (to_string (if truthy d then d else JStr "")) as [r|e4] eqn:Hr; cbn [bind];
    [done|]. intros [= <-]. by eapply to_string_fault.
Qed.

Lemma headline_of_engine a e : headline_of a = Throw e -> engine_fault e = true.
Proof.
  unfold headline_of.
  destruct (get_prop a "title") as [t|e1] eqn:Ht; cbn [bind];
    [|intros [= <-]; by eapply get_prop_fault].
  destruct (get_prop a "source") as [src|e2] eqn:Hs; cbn [bind];
    [|intros [= <-]; by eapply get_prop_fault].
  destruct (get_prop src "name") as [n|e3] eqn:Hn; cbn [bind];
    [|intros [= <-]; by eapply get_prop_fault].
  destruct (get_prop a "publishedAt") as [p|e4] eqn:Hp; cbn [bind];
    [|intros [= <-]; by eapply get_prop_fault].
  destruct (get_prop a "url") as [u|e5] eqn:Hu; cbn [bind];
    [done | intros [= <-]; by eapply get_prop_fault].
Qed.

Lemma map_result_fault {A B : Type} (f : A -> result B) l e :
  map_result f l = Throw e -> exists x, x ∈ l /\ f x = Throw e.
Proof.
  induction l as [|x l IH]; simpl; [done|].
  destruct (f x) as [y|e1] eqn:Hx; cbn [bind].
  - destruct (map_result f l) as [ys|e2]; cbn [bind]; [done|].
    intros [= <-]. destruct (IH eq_refl) as (x' & Hin & Hx'). exists x'. split; [by right|done].
  - intros [= <-]. exists x. split; [left|done].
Qed.

Lemma extractThemes_fault v e : extractThemes v = Throw e -> engine_fault e = true.
Proof.
  destruct v as [| |b|r|str|items|props]; simpl; try by intros [= <-].
  rewrite forEach_articles_texts.
  destruct (texts_of items) as [texts|e1] eqn:Ht; cbn [bind]; [done|].
  intros [= <-]. apply map_result_fault in Ht as (a & _ & Ha).
  by apply (search_text_fault a).
Qed.

Lemma structureNewsData_fault now raw e :
  structureNewsData now raw = Throw e -> engine_fault e = true.
Proof.
  unfold structureNewsData.
  destruct (get_prop raw "articles") as [all|e1] eqn:Hg; cbn [bind];
    [|intros [= <-]; by eapply get_prop_fault].
  destruct (truthy all); cbn [negb]; [|done].
  destruct (get_prop all "length") as [len|e2] eqn:Hl; cbn [bind];
    [|intros [= <-]; by eapply get_prop_fault].
  destruct (strict_eq_zero len); [done|].
  destruct (call_slice all 10) as [articles|e3] eqn:Hs; cbn [bind].
  2:{ intros [= <-]. destruct all; simpl in Hs; try done; by injection Hs as <-. }
  destruct (extractThemes articles) as [themes|e4] eqn:Ht; cbn [bind];
    [|intros [= <-]; by eapply extractThemes_fault].
  destruct (call_map articles headline_of) as [hs|e5] eqn:Hh; cbn [bind]; [done|].
  intros [= <-]. destruct articles; simpl in Hh; try done; try by injection Hh as <-.
  apply map_result_fault in Hh as (a & _ & Ha). by apply (headline_of_engine a).
Qed.

Lemma read_message_engine e : engine_fault e = true -> read_message e = Ret tt.
Proof. by destruct e. Qed.

Lemma read_message_ok e : has_message e = true -> read_message e = Ret tt.
Proof. destruct e as [| | | |v]; try done. by destruct v. Qed.

Lemma read_message_nullish e :
  has_message e = false -> read_message e = Throw (ReadOfNullish "message").
Proof. destruct e as [| | | |v]; try done. by destruct v. Qed.

(** ** fetchNewsSentiment *)

#[local] Arguments structureNewsData : simpl never.

#[local] Arguments read_message : simpl never.

Lemma fetch_env_fault w env e :
  get_prop env "NEWSAPI_KEY" = Throw e ->
  fetchNewsSentiment w env = ([ConsoleError failure_label e], Ret None).
Proof.
  intros H. unfold fetchNewsSentiment. rewrite H. simpl.
  by rewrite (read_message_engine e (get_prop_fault _ _ _ H)).
Qed.

Lemma fetch_no_key w env key :
  get_prop env "NEWSAPI_KEY" = Ret key -> truthy key = false ->
  fetchNewsSentiment w env = ([ConsoleWarn "NEWSAPI_KEY not configured"], Ret None).
Proof. intros H Hk. unfold fetchNewsSentiment. by rewrite H; simpl; rewrite Hk. Qed.

Lemma fetch_key_fault w env key e :
  get_prop env "NEWSAPI_KEY" = Ret key -> truthy key = true -> to_string key = Throw e ->
  fetchNewsSentiment w env = ([ConsoleError failure_label e], Ret None).
Proof.
  intros H Hk Hs. unfold fetchNewsSentiment. rewrite H; simpl; rewrite Hk; simpl.
  rewrite Hs. simpl. by rewrite (read_message_engine e (to_string_fault _ _ Hs)).
Qed.

Lemma fetch_network_fault w env key ks e :
  get_prop env "NEWSAPI_KEY" = Ret key -> truthy key = true -> to_string key = Ret ks ->
  fetch w (news_request ks) = Throw e -> has_message e = true ->
  fetchNewsSentiment w env =
  ([NetworkCall (news_request ks); ConsoleError failure_label e], Ret None).
Proof.
  intros H Hk Hs Hf He. unfold fetchNewsSentiment. rewrite H; simpl; rewrite Hk; simpl.
  rewrite Hs; simpl. fold (query ks). fold (news_request ks). rewrite Hf. simpl.
  by rewrite (read_message_ok e He).
Qed.

Lemma fetch_network_escape w env key ks e :
  get_prop env "NEWSAPI_KEY" = Ret key -> truthy key = true -> to_string key = Ret ks ->
  fetch w (news_request ks) = Throw e -> has_message e = false ->
  fetchNewsSentiment w env =
  ([NetworkCall (news_request ks)], Throw (ReadOfNullish "message")).
Proof.
  intros H Hk Hs Hf He. unfold fetchNewsSentiment. rewrite H; simpl; rewrite Hk; simpl.
  rewrite Hs; simpl. fold (query ks). fold (news_request ks). rewrite Hf. simpl.
  by rewrite (read_message_nullish e He).
Qed.

Lemma fetch_not_ok w env key ks resp :
  get_prop env "NEWSAPI_KEY" = Ret key -> truthy key = true -> to_string key = Ret ks ->
  fetch w (news_request ks) = Ret resp -> ok resp = false ->
  fetchNewsSentiment w env =
  ([NetworkCall (news_request ks);
    ConsoleWarn ("NewsAPI returned " +:+ render (status resp))], Ret None).
Proof.
  intros H Hk Hs Hf Hok. unfold fetchNewsSentiment. rewrite H; simpl; rewrite Hk; simpl.
  rewrite Hs; simpl. fold (query ks). fold (news_request ks). rewrite Hf; simpl.
  by rewrite Hok.
Qed.

Lemma fetch_body_fault w env key ks resp e :
  get_prop env "NEWSAPI_KEY" = Ret key -> truthy key = true -> to_string key = Ret ks ->
  fetch w (news_request ks) = Ret resp -> ok resp = true -> json resp = Throw e ->
  has_message e = true ->
  fetchNewsSentiment w env =
  ([NetworkCall (news_request ks); BodyRead; ConsoleError failure_label e], Ret None).
Proof.
  intros H Hk Hs Hf Hok Hj He. unfold fetchNewsSentiment. rewrite H; simpl; rewrite Hk; simpl.
  rewrite Hs; simpl. fold (query ks). fold (news_request ks). rewrite Hf; simpl.
  rewrite Hok; simpl. rewrite Hj. simpl. by rewrite (read_message_ok e He).
Qed.

Lemma fetch_body_escape w env key ks resp e :
  get_prop env "NEWSAPI_KEY" = Ret key -> truthy key = true -> to_string key = Ret ks ->
  fetch w (news_request ks) = Ret resp -> ok resp = true -> json resp = Throw e ->
  has_message e = false ->
  fetchNewsSentiment w env =
  ([NetworkCall (news_request ks); BodyRead], Throw (ReadOfNullish "message")).
Proof.
  intros H Hk Hs Hf Hok Hj He. unfold fetchNewsSentiment. rewrite H; simpl; rewrite Hk; simpl.
  rewrite Hs; simpl. fold (query ks). fold (news_request ks). rewrite Hf; simpl.
  rewrite Hok; simpl. rewrite Hj. simpl. by rewrite (read_message_nullish e He).
Qed.

Lemma fetch_body w env key ks resp data :
  get_prop env "NEWSAPI_KEY" = Ret key -> truthy key = true -> to_string key = Ret ks ->
  fetch w (news_request ks) = Ret resp -> ok resp = true -> json resp = Ret data ->
  fetchNewsSentiment w env =
  match structureNewsData (clock w) data with
  | Ret r => ([NetworkCall (news_request ks); BodyRead], Ret r)
  | Throw e =>
      ([NetworkCall (news_request ks); BodyRead; ConsoleError failure_label e], Ret None)
  end.
Proof.
  intros H Hk Hs Hf Hok Hj. unfold fetchNewsSentiment. rewrite H; simpl; rewrite Hk; simpl.
  rewrite Hs; simpl. fold (query ks). fold (news_request ks). rewrite Hf; simpl.
  rewrite Hok; simpl. rewrite Hj; simpl.
  destruct (structureNewsData (clock w) data) as [r|e] eqn:Hd; [done|]. simpl.
  by rewrite (read_message_engine e (structureNewsData_fault _ _ _ Hd)).
Qed.

Lemma fetch_delivered w env data :
  delivered w env = Some data ->
  exists ks,
    fetchNewsSentiment w env =
    match structureNewsData (clock w) data with
    | Ret r => ([NetworkCall (news_request ks); BodyRead], Ret r)
    | Throw e =>
        ([NetworkCall (news_request ks); BodyRead; ConsoleError failure_label e], Ret None)
    end.
Proof.
  unfold delivered.
  destruct (get_prop env "NEWSAPI_KEY") as [key|] eqn:Hg; [|done].
  destruct (truthy key) eqn:Hk; [|done].
  destruct (to_string key) as [ks|] eqn:Hs; [|done].
  destruct (fetch w (news_request ks)) as [resp|] eqn:Hf; [|done].
  destruct (ok resp) eqn:Hok; [|done].
  destruct (json resp) as [d|] eqn:Hj; [|done].
  intros [= ->]. exists ks. by apply (fetch_body w env key ks resp).
Qed.

Lemma summary_shape now raw s :
  structureNewsData now raw = Ret (Some s) ->
  1 <= articleCount s <= 10 /\ length (headlines s) = articleCount s /\
  length (themes s) <= 3 /\ timestamp s = now.
Proof.
  intros (arts & texts & hs & _ & Hne & _ & Hh & ->)%structureNewsData_present.
  simpl. rewrite (map_result_length _ _ _ Hh), length_take, rank_themes_length.
  destruct arts as [|a arts]; [done|]. cbn [length].
  split_and!; try done; lia.
Qed.

(** ** Faults, projections and the instance of the specification *)

Lemma headline_of_no_source a src :
  get_prop a "source" = Ret src -> nullish src = true ->
  headline_of a = Throw (ReadOfNullish "name").
Proof.
  intros Hg Hn. unfold headline_of.
  destruct (get_prop a "title") as [t|e] eqn:Ht; [|by destruct a].
  cbn [bind]. rewrite Hg. cbn [bind]. by destruct src.
Qed.

Lemma headline_of_fault a e :
  headline_of a = Throw e -> nullish a = false -> e = ReadOfNullish "name".
Proof.
  unfold headline_of. intros H Ha.
  destruct (get_prop a "title") as [t|] eqn:Ht; [|by destruct a].
  destruct (get_prop a "source") as [src|] eqn:Hs; [|by destruct a].
  destruct (get_prop a "publishedAt") as [p|] eqn:Hp; [|by destruct a].
  destruct (get_prop a "url") as [u|] eqn:Hu; [|by destruct a].
  cbn [bind] in H. destruct (get_prop src "name") as [n|e'] eqn:Hn; [done|].
  cbn [bind] in H. injection H as <-. by destruct src; simplify_eq/=.
Qed.

Lemma headlines_fault l e :
  map_result headline_of l = Throw e -> Forall (fun a => nullish a = false) l ->
  e = ReadOfNullish "name".
Proof.
  intros H Hl. revert H. induction Hl as [|a l Ha _ IH]; simpl; [done|].
  destruct (headline_of a) as [h|e'] eqn:Hh; cbn [bind].
  - destruct (map_result headline_of l); cbn [bind]; [done|].
    intros [= ->]. by apply IH.
  - intros [= ->]. by apply (headline_of_fault a).
Qed.

Lemma texts_of_not_nullish l texts :
  texts_of l = Ret texts -> Forall (fun a => nullish a = false) l.
Proof.
  unfold texts_of. revert texts. induction l as [|a l IH]; simpl; intros texts H; [done|].
  destruct (search_text a) as [t|] eqn:Ht; cbn [bind] in H; [|done].
  destruct (map_result search_text l) as [ts|] eqn:Hts; cbn [bind] in H; [|done].
  constructor; [by destruct a | by eapply IH].
Qed.

Lemma headline_of_projection a h : headline_of a = Ret h -> h = projection a.
Proof.
  unfold headline_of, projection.
  destruct a as [| |b|r|str|items|props]; simpl; try done.
  destruct (lookup_own "source" props) as [| |b|r|str|items|props']; simpl; try done;
    by intros [= <-].
Qed.

Lemma headlines_projection l hs :
  map_result headline_of l = Ret hs -> hs = map projection l.
Proof.
  revert hs. induction l as [|a l IH]; simpl; intros hs; [by intros [= <-]|].
  destruct (headline_of a) as [h|] eqn:Hh; cbn [bind]; [|done].
  destruct (map_result headline_of l) as [hs'|]; cbn [bind]; [|done].
  intros [= <-]. by rewrite (headline_of_projection a h Hh), (IH hs').
Qed.

Lemma no_keyword_occurrences texts :
  (forall text entry, text ∈ texts -> entry ∈ themeKeywords ->
                      some_keyword text (snd entry) = false) ->
  forall th, occurrences th texts = 0.
Proof.
  intros H th. unfold occurrences.
  destruct (List.filter (theme_matches th) texts) as [|text l] eqn:E; [done|].
  assert (In text (List.filter (theme_matches th) texts)) as [Hin Hm]%filter_In
    by (rewrite E; by left).
  apply existsb_exists in Hm as (entry & He & [_ Hh]%andb_true_iff).
  unfold hit in Hh. rewrite H in Hh; [done | by apply list_elem_of_In..].
Qed.

(** [extractThemes] returns exactly when every search text can be built. *)
Lemma extractThemes_returns items :
  (exists themes, extractThemes (JArr items) = Ret themes) <->
  (exists texts, texts_of items = Ret texts).
Proof.
  unfold extractThemes. rewrite forEach_articles_texts.
  destruct (texts_of items) as [texts|e]; cbn [bind]; split; intros [x Hx]; eauto; done.
Qed.

Lemma matches_in_entry tbl th kws text :
  NoDup (map fst tbl) -> (th, kws) ∈ tbl -> matches_in tbl th text = some_keyword text kws.
Proof.
  intros Hnd Hin. destruct (some_keyword text kws) eqn:Hk.
  - apply existsb_exists. exists (th, kws). split; [by apply list_elem_of_In|].
    unfold hit. simpl. by rewrite String.eqb_refl, Hk.
  - apply not_true_iff_false. intros (e & He & [Heq%String.eqb_eq Hh]%andb_true_iff)%existsb_exists.
    apply list_elem_of_In in He.
    rewrite <- (unique_entry tbl (th, kws) e Hnd Hin He Heq) in Hh.
    unfold hit in Hh. simpl in Hh. congruence.
Qed.

(** The instance of the specification: counts inflation 3, growth 3,
    markets 1, nothing else. *)
Lemma rank_three texts :
  occurrences "monetary_policy" texts = 0 -> occurrences "inflation" texts = 3 ->
  occurrences "growth" texts = 3 -> occurrences "employment" texts = 0 ->
  occurrences "markets" texts = 1 ->
  rank_themes texts =
  if Nat.leb (first_article "inflation" texts) (first_article "growth" texts)
  then ["inflation"; "growth"; "markets"]
  else ["growth"; "inflation"; "markets"].
Proof.
  intros Hmp Hin Hgr Hem Hma.
  assert (Hlen : length (rank_themes texts) = 3).
  { rewrite rank_themes_length. unfold surviving. cbn [map fst themeKeywords List.filter].
    by rewrite Hmp, Hin, Hgr, Hem, Hma. }
  assert (Hel : forall t, t ∈ rank_themes texts ->
                          t = "inflation" \/ t = "growth" \/ t = "markets").
  { intros t [Ht Hpos]%rank_themes_elem. cbn [map fst themeKeywords] in Ht.
    rewrite !elem_of_cons in Ht.
    destruct Ht as [->|[->|[->|[->|[->|Ht]]]]]; auto; [lia..|].
    by apply elem_of_nil in Ht. }
  pose proof (rank_themes_NoDup texts) as Hnd.
  pose proof (rank_themes_sorted texts) as Hsort.
  pose proof (pos_tie_order texts) as Htie.
  set (l := rank_themes texts) in *. clearbody l.
  destruct l as [|x [|y [|z [|? ?]]]]; try discriminate.
  assert (Hxy : occurrences y texts <= occurrences x texts) by (apply (Hsort 0 1); [done..|lia]).
  assert (Hyz : occurrences z texts <= occurrences y texts) by (apply (Hsort 1 2); [done..|lia]).
  apply NoDup_cons in Hnd as [Hx Hnd]. apply NoDup_cons in Hnd as [Hy _].
  apply not_elem_of_cons in Hx as [Hxy' [Hxz' _]%not_elem_of_cons].
  apply not_elem_of_cons in Hy as [Hyz' _].
  specialize (Htie x y). unfold pos in Htie. cbn [find_index] in Htie.
  rewrite String.eqb_refl in Htie.
  rewrite (proj2 (String.eqb_neq y x)) in Htie by congruence.
  rewrite String.eqb_refl in Htie.
  assert (Hx3 : x ∈ [x; y; z]) by (rewrite !elem_of_cons; auto).
  assert (Hy3 : y ∈ [x; y; z]) by (rewrite !elem_of_cons; auto).
  assert (Hz3 : z ∈ [x; y; z]) by (rewrite !elem_of_cons; auto).
  specialize (Htie Hx3 Hy3).
  change (decl_pos "inflation") with 1 in *.
  destruct (Hel x Hx3) as [-> | [-> | ->]], (Hel y Hy3) as [-> | [-> | ->]],
           (Hel z Hz3) as [-> | [-> | ->]];
    try congruence; try (exfalso; lia).
  - change (decl_pos "inflation") with 1 in Htie.
    change (decl_pos "growth") with 2 in Htie.
    destruct (Nat.leb_spec (first_article "inflation" texts) (first_article "growth" texts));
      [done|]. exfalso. rewrite Hin, Hgr in Htie. specialize (Htie eq_refl). lia.
  - change (decl_pos "inflation") with 1 in Htie.
    change (decl_pos "growth") with 2 in Htie.
    destruct (Nat.leb_spec (first_article "inflation" texts) (first_article "growth" texts));
      [|done]. exfalso. rewrite Hin, Hgr in Htie. specialize (Htie eq_refl). lia.
Qed.

(** * The claims *)

(** C1. The module is written never to throw, and it does throw: when
    the network call rejects with [undefined], or the body read
    rejects with [null], the handler faults at the read of
    [error.message]; nothing is logged and the fault leaves
    [fetchNewsSentiment] instead of the [null] result. *)
Theorem nullish_rejection_escapes :
  fetchNewsSentiment (world_of (Throw (Thrown JUndefined))) env_with_key =
    ([NetworkCall (news_request "k123")], Throw (ReadOfNullish "message")) /\
  fetchNewsSentiment (world_of (Ret (Response true 200 (Throw (Thrown JNull)))))
    env_with_key =
    ([NetworkCall (news_request "k123"); BodyRead], Throw (ReadOfNullish "message")).
Proof. split; reflexivity. Qed.

(** C2, as stated, fails: with counts inflation 3, growth 3, markets 1
    the code lists growth before inflation when growth is matched
    first, although inflation is declared first. *)
Lemma tie_not_by_declaration :
  texts_of growth_first = Ret growth_first_texts /\
  occurrences "inflation" growth_first_texts = 3 /\
  occurrences "growth" growth_first_texts = 3 /\
  occurrences "markets" growth_first_texts = 1 /\
  decl_pos "inflation" < decl_pos "growth" /\
  extractThemes (JArr growth_first) = Ret ["growth"; "inflation"; "markets"] /\
  extractThemes (JArr growth_first) <> Ret ["inflation"; "growth"; "markets"].
Proof.
  split_and!.
  - reflexivity.
  - reflexivity.
  - reflexivity.
  - reflexivity.
  - vm_compute. lia.
  - reflexivity.
  - vm_compute. discriminate.
Qed.

(** C2, amended. Two returned themes with equal counts are listed in
    the order in which they were first counted: the one whose first
    matching article comes earlier is first, and for the same first
    article the one declared first in the keyword table.  For counts
    inflation 3, growth 3, markets 1 the result is
    [inflation, growth, markets] when inflation is matched no later
    than growth, and [growth, inflation, markets] otherwise. *)
Theorem ties_by_first_match (items : list jsval) (texts : list string) :
  texts_of items = Ret texts ->
  exists themes,
    extractThemes (JArr items) = Ret themes /\
    (forall i j t1 t2,
        themes !! i = Some t1 -> themes !! j = Some t2 ->
        occurrences t1 texts = occurrences t2 texts ->
        i < j <->
        first_article t1 texts < first_article t2 texts \/
        (first_article t1 texts = first_article t2 texts /\ decl_pos t1 < decl_pos t2)) /\
    (occurrences "monetary_policy" texts = 0 -> occurrences "inflation" texts = 3 ->
     occurrences "growth" texts = 3 -> occurrences "employment" texts = 0 ->
     occurrences "markets" texts = 1 ->
     themes =
     if Nat.leb (first_article "inflation" texts) (first_article "growth" texts)
     then ["inflation"; "growth"; "markets"]
     else ["growth"; "inflation"; "markets"]).
Proof.
  intros Ht. exists (rank_themes texts). split_and!.
  - by apply extractThemes_texts.
  - intros i j t1 t2 H1 H2 Heq.
    rewrite <- (pos_lookup t1 _ i (rank_themes_NoDup texts) H1).
    rewrite <- (pos_lookup t2 _ j (rank_themes_NoDup texts) H2).
    apply pos_tie_order; [by eapply list_elem_of_lookup_2..|done].
  - apply rank_three.
Qed.

Lemma ties_by_first_match_witness :
  texts_of growth_first = Ret growth_first_texts /\
  exists themes,
    extractThemes (JArr growth_first) = Ret themes /\
    (forall i j t1 t2,
        themes !! i = Some t1 -> themes !! j = Some t2 ->
        occurrences t1 growth_first_texts = occurrences t2 growth_first_texts ->
        i < j <->
        first_article t1 growth_first_texts < first_article t2 growth_first_texts \/
        (first_article t1 growth_first_texts = first_article t2 growth_first_texts /\
         decl_pos t1 < decl_pos t2)) /\
    (occurrences "monetary_policy" growth_first_texts = 0 ->
     occurrences "inflation" growth_first_texts = 3 ->
     occurrences "growth" growth_first_texts = 3 ->
     occurrences "employment" growth_first_texts = 0 ->
     occurrences "markets" growth_first_texts = 1 ->
     themes =
     if Nat.leb (first_article "inflation" growth_first_texts)
                (first_article "growth" growth_first_texts)
     then ["inflation"; "growth"; "markets"]
     else ["growth"; "inflation"; "markets"]).
Proof.
  split; [reflexivity|].
  apply (ties_by_first_match growth_first growth_first_texts). reflexivity.
Defined.

(** C3, as stated, fails: the code puts a space between title and
    description, so a keyword that straddles the two is not found.
    For title "Bond" and description "s rally" the concatenation
    contains the keyword "bonds" of markets, yet no theme is counted. *)
Lemma text_not_concatenation :
  search_text (article "Bond" "s rally") = Ret "bond s rally" /\
  search_text (article "Bond" "s rally") <> Ret (concatenated_text "Bond" "s rally") /\
  some_keyword (concatenated_text "Bond" "s rally") markets_keywords = true /\
  extractThemes (JArr [article "Bond" "s rally"]) = Ret [].
Proof.
  split_and!.
  - reflexivity.
  - vm_compute. discriminate.
  - reflexivity.
  - reflexivity.
Qed.

(** C3, amended. For an article with a text [title] and a
    [description] that is a text or absent, the search text is the
    lowercased title, one space, and the description (empty when
    absent); the loop counts the article with that text; and the
    counter of each theme of the table grows by exactly 1 when one of
    its keywords occurs in that text, however many do, and by 0
    otherwise. *)
Theorem one_count_per_article (a d : jsval) (t : string) (rest : list jsval) (o : counts)
    (n : nat) (th : string) (kws : list string) :
  get_prop a "title" = Ret (JStr t) -> get_prop a "description" = Ret d ->
  optional_string d = true -> themeKeywords !! n = Some (th, kws) ->
  let text := toLowerCase (t +:+ " " +:+ text_of d) in
  search_text a = Ret text /\
  forEach_articles (a :: rest) o = forEach_articles rest (count_article text o) /\
  default 0 (obj_get th (count_article text o)) =
  default 0 (obj_get th o) + (if some_keyword text kws then 1 else 0).
Proof.
  intros Ht Hd Hopt Hn text.
  assert (Hs : search_text a = Ret text).
  { unfold search_text. rewrite Ht. cbn [bind to_string]. rewrite Hd. cbn [bind].
    destruct d as [| | | |ds| |]; try done. by destruct ds. }
  split_and!; [done | |].
  - cbn [forEach_articles]. by rewrite Hs.
  - unfold count_article. rewrite obj_get_count_fold by apply NoDup_themes.
    rewrite (matches_in_entry _ th kws); [done | apply NoDup_themes|].
    by eapply list_elem_of_lookup_2.
Qed.

Lemma one_count_per_article_witness :
  let a := article "Fed holds interest rates steady" "Powell signals caution" in
  let text := "fed holds interest rates steady powell signals caution" in
  search_text a = Ret text /\
  forEach_articles [a] [] = forEach_articles [] (count_article text []) /\
  default 0 (obj_get "monetary_policy" (count_article text [])) = 0 + 1.
Proof.
  exact (one_count_per_article
           (article "Fed holds interest rates steady" "Powell signals caution")
           (JStr "Powell signals caution") "Fed holds interest rates steady" [] [] 0
           "monetary_policy"
           ["fed"; "federal reserve"; "powell"; "interest rates"; "hawkish"; "dovish"; "policy"]
           eq_refl eq_refl eq_refl eq_refl).
Defined.

(** C4. For a non-empty article list, a summary is returned when the
    first 10 entries are raw articles, and any summary returned has an
    [articleCount] and a number of headlines equal to [min 10] of the
    input length, its headlines being, in input order, the projections
    [{title, source: source.name, publishedAt, url}] of the first
    articles. *)
Theorem headlines_first_ten (now : string) (raw : jsval) (arts : list jsval) :
  get_prop raw "articles" = Ret (JArr arts) -> arts <> [] ->
  (forallb is_raw_article (take 10 arts) = true ->
   exists s, structureNewsData now raw = Ret (Some s)) /\
  (forall s, structureNewsData now raw = Ret (Some s) ->
     articleCount s = min 10 (length arts) /\
     length (headlines s) = min 10 (length arts) /\
     headlines s = map projection (take 10 arts) /\
     (forall i, i < 10 -> headlines s !! i = projection <$> arts !! i)).
Proof.
  intros Hg Hne. split.
  - intros Hraw.
    assert (Hall : Forall (fun a => is_raw_article a = true) (take 10 arts)).
    { apply Forall_forall. intros a Ha%list_elem_of_In.
      by apply (proj1 (forallb_forall _ _) Hraw). }
    rewrite (structureNewsData_array _ _ _ Hg Hne).
    rewrite (extractThemes_texts _ _ (raw_articles_texts _ Hall)). cbn [bind].
    rewrite (map_result_total headline_of projection); [cbn [bind]; eauto|].
    eapply Forall_impl; [exact Hall|]. apply raw_article_headline.
  - intros s (arts' & texts & hs & Hg' & _ & _ & Hh & ->)%structureNewsData_present.
    rewrite Hg in Hg'. injection Hg' as <-.
    rewrite (headlines_projection _ _ Hh). cbn [articleCount headlines].
    rewrite length_map, length_take. split_and!; try done.
    intros i Hi. change (map projection ?l) with (projection <$> l).
    by rewrite list_lookup_fmap, lookup_take_lt.
Qed.

Lemma headlines_first_ten_witness :
  (forallb is_raw_article (take 10 twelve) = true ->
   exists s, structureNewsData "2024-01-02T00:00:00.000Z" (body_of twelve) = Ret (Some s)) /\
  (forall s, structureNewsData "2024-01-02T00:00:00.000Z" (body_of twelve) = Ret (Some s) ->
     articleCount s = 10 /\
     length (headlines s) = 10 /\
     headlines s = map projection (take 10 twelve) /\
     (forall i, i < 10 -> headlines s !! i = projection <$> twelve !! i)).
Proof.
  apply (headlines_first_ten "2024-01-02T00:00:00.000Z" (body_of twelve) twelve);
    [reflexivity | discriminate].
Defined.

(** C5. The themes returned are in descending order of occurrences,
    none has zero occurrences, there are [min 3] of the number of
    themes with occurrences of them, no theme left out has more
    occurrences than one returned, and when no search text contains a
    keyword the sequence is empty. *)
Theorem themes_top_three (items : list jsval) (texts : list string) :
  texts_of items = Ret texts ->
  exists themes,
    extractThemes (JArr items) = Ret themes /\
    (forall i j t1 t2, i < j -> themes !! i = Some t1 -> themes !! j = Some t2 ->
                       occurrences t2 texts <= occurrences t1 texts) /\
    (forall t, t ∈ themes -> 0 < occurrences t texts) /\
    length themes = min 3 (length (surviving texts)) /\
    (forall th t, 0 < occurrences th texts -> th ∉ themes -> t ∈ themes ->
                  occurrences th texts <= occurrences t texts) /\
    ((forall text entry, text ∈ texts -> entry ∈ themeKeywords ->
                         some_keyword text (snd entry) = false) ->
     themes = []).
Proof.
  intros Ht. exists (rank_themes texts). split_and!.
  - by apply extractThemes_texts.
  - intros i j t1 t2 Hij H1 H2. by apply (rank_themes_sorted texts i j).
  - intros t Hin. by apply rank_themes_elem.
  - apply rank_themes_length.
  - apply rank_themes_top.
  - intros H. by apply rank_themes_nil, no_keyword_occurrences.
Qed.

Lemma themes_top_three_witness :
  exists themes,
    extractThemes (JArr growth_first) = Ret themes /\
    (forall i j t1 t2, i < j -> themes !! i = Some t1 -> themes !! j = Some t2 ->
                       occurrences t2 growth_first_texts <= occurrences t1 growth_first_texts) /\
    (forall t, t ∈ themes -> 0 < occurrences t growth_first_texts) /\
    length themes = 3 /\
    (forall th t, 0 < occurrences th growth_first_texts -> th ∉ themes -> t ∈ themes ->
                  occurrences th growth_first_texts <= occurrences t growth_first_texts) /\
    ((forall text entry, text ∈ growth_first_texts -> entry ∈ themeKeywords ->
                         some_keyword text (snd entry) = false) ->
     themes = []).
Proof.
  apply (themes_top_three growth_first growth_first_texts). reflexivity.
Defined.

(** C6. When the configuration has no [NEWSAPI_KEY] (the property reads
    as [undefined], or as any other falsy value), [fetchNewsSentiment]
    emits the one warning and returns [null]; no network call is in
    its trace. *)
Theorem missing_credential_absent (w : world) (env key : jsval) :
  get_prop env "NEWSAPI_KEY" = Ret key -> truthy key = false ->
  fetchNewsSentiment w env = ([ConsoleWarn "NEWSAPI_KEY not configured"], Ret None) /\
  forall req, NetworkCall req ∉ fst (fetchNewsSentiment w env).
Proof.
  intros Hg Hk. rewrite (fetch_no_key w env key Hg Hk). split; [done|].
  intros req [=]%list_elem_of_singleton.
Qed.

Lemma missing_credential_absent_witness :
  fetchNewsSentiment (world_of (Throw (PlatformError "unreachable"))) (JObj []) =
    ([ConsoleWarn "NEWSAPI_KEY not configured"], Ret None) /\
  forall req,
    NetworkCall req ∉
      fst (fetchNewsSentiment (world_of (Throw (PlatformError "unreachable"))) (JObj [])).
Proof.
  apply (missing_credential_absent _ (JObj []) JUndefined); reflexivity.
Defined.

(** C7. When the response's status does not indicate success,
    [fetchNewsSentiment] emits a warning that carries the status and
    returns [null]; the body is not read and no summary is built. *)
Theorem http_failure_absent (w : world) (env key : jsval) (ks : string) (resp : response) :
  get_prop env "NEWSAPI_KEY" = Ret key -> truthy key = true -> to_string key = Ret ks ->
  fetch w (news_request ks) = Ret resp -> ok resp = false ->
  fetchNewsSentiment w env =
    ([NetworkCall (news_request ks);
      ConsoleWarn ("NewsAPI returned " +:+ render (status resp))], Ret None) /\
  BodyRead ∉ fst (fetchNewsSentiment w env).
Proof.
  intros Hg Hk Hs Hf Hok. rewrite (fetch_not_ok w env key ks resp Hg Hk Hs Hf Hok).
  split; [done|]. simpl. rewrite !not_elem_of_cons. repeat split; try done.
  apply not_elem_of_nil.
Qed.

Lemma http_failure_absent_witness :
  let w := world_of (Ret (Response false 500 (Ret JNull))) in
  fetchNewsSentiment w env_with_key =
    ([NetworkCall (news_request "k123"); ConsoleWarn "NewsAPI returned 500"], Ret None) /\
  BodyRead ∉ fst (fetchNewsSentiment w env_with_key).
Proof.
  apply (http_failure_absent (world_of (Ret (Response false 500 (Ret JNull))))
           env_with_key (JStr "k123") "k123" (Response false 500 (Ret JNull)));
    reflexivity.
Defined.

(** C8. When the article list of the parsed body is missing ([undefined],
    [null], or any falsy value) or empty, [structureNewsData] returns
    [null], and so does [fetchNewsSentiment], without logging; and any
    summary that [structureNewsData] returns, for any body, counts at
    least one article and has a headline for each. *)
Theorem empty_articles_absent (w : world) (env data v : jsval) :
  delivered w env = Some data ->
  get_prop data "articles" = Ret v -> truthy v = false \/ v = JArr [] ->
  structureNewsData (clock w) data = Ret None /\
  (exists ks, fetchNewsSentiment w env =
                ([NetworkCall (news_request ks); BodyRead], Ret None)) /\
  (forall raw s, structureNewsData (clock w) raw = Ret (Some s) ->
                 1 <= articleCount s /\ length (headlines s) = articleCount s).
Proof.
  intros Hd Hg Hv.
  assert (Hnone : structureNewsData (clock w) data = Ret None).
  { by apply (structureNewsData_absent _ _ v Hg). }
  split_and!; [done | |].
  - destruct (fetch_delivered w env data Hd) as [ks Hrun]. exists ks.
    by rewrite Hrun, Hnone.
  - intros raw s Hs%summary_shape. lia.
Qed.

Lemma empty_articles_absent_witness :
  let w := world_of (Ret (Response true 200 (Ret (body_of [])))) in
  structureNewsData (clock w) (body_of []) = Ret None /\
  (exists ks, fetchNewsSentiment w env_with_key =
                ([NetworkCall (news_request ks); BodyRead], Ret None)) /\
  (forall raw s, structureNewsData (clock w) raw = Ret (Some s) ->
                 1 <= articleCount s /\ length (headlines s) = articleCount s).
Proof.
  apply (empty_articles_absent (world_of (Ret (Response true 200 (Ret (body_of [])))))
           env_with_key (body_of []) (JArr [])); [reflexivity | reflexivity | right; reflexivity].
Defined.

(** C9. The themes returned by [extractThemes] are pairwise distinct
    and each is one of the five labels of the keyword table. *)
Theorem themes_distinct_labels (items : list jsval) (texts : list string) :
  texts_of items = Ret texts ->
  exists themes,
    extractThemes (JArr items) = Ret themes /\
    NoDup themes /\
    forall t, t ∈ themes ->
      t ∈ ["monetary_policy"; "inflation"; "growth"; "employment"; "markets"].
Proof.
  intros Ht. exists (rank_themes texts). split_and!.
  - by apply extractThemes_texts.
  - apply rank_themes_NoDup.
  - intros t [Hin _]%rank_themes_elem. exact Hin.
Qed.

Lemma themes_distinct_labels_witness :
  exists themes,
    extractThemes (JArr twelve) = Ret themes /\
    NoDup themes /\
    forall t, t ∈ themes ->
      t ∈ ["monetary_policy"; "inflation"; "growth"; "employment"; "markets"].
Proof.
  apply (themes_distinct_labels twelve
           (map (fun a => toLowerCase (text_of (own a "title") +:+ " ")) twelve)).
  reflexivity.
Defined.

(** C10. When the body parses and one of its first 10 articles has no
    [source] object ([undefined] or [null]), [structureNewsData]
    faults, and [fetchNewsSentiment] returns [null] after logging that
    fault at error level; when every search text can be built, the
    fault is the read of [name]. *)
Theorem missing_source_absent (w : world) (env data : jsval) (arts : list jsval)
    (i : nat) (a src : jsval) :
  delivered w env = Some data ->
  get_prop data "articles" = Ret (JArr arts) ->
  arts !! i = Some a -> i < 10 ->
  get_prop a "source" = Ret src -> nullish src = true ->
  exists ks e,
    structureNewsData (clock w) data = Throw e /\
    fetchNewsSentiment w env =
      ([NetworkCall (news_request ks); BodyRead; ConsoleError failure_label e], Ret None) /\
    (forall texts, texts_of (take 10 arts) = Ret texts -> e = ReadOfNullish "name").
Proof.
  intros Hd Hg Hi Hlt Hsrc Hnull.
  destruct (fetch_delivered w env data Hd) as [ks Hrun]. exists ks.
  assert (Hin : a ∈ take 10 arts).
  { apply elem_of_take. eauto. }
  assert (Hne : arts <> []) by (intros ->; done).
  destruct (map_result_throw headline_of (take 10 arts) a _ Hin
              (headline_of_no_source a src Hsrc Hnull)) as [e' He'].
  rewrite Hrun, (structureNewsData_array _ _ _ Hg Hne).
  unfold extractThemes. rewrite forEach_articles_texts.
  destruct (texts_of (take 10 arts)) as [texts|e] eqn:Ht; cbn [bind].
  - rewrite He'. cbn [bind]. exists e'. split_and!; [done..|].
    intros _ _. apply (headlines_fault _ _ He'). by eapply texts_of_not_nullish.
  - exists e. split_and!; done.
Qed.

Lemma missing_source_absent_witness :
  let arts := [article "GDP surprises" ""; JObj [("title", JStr "No source")]] in
  let w := world_of (Ret (Response true 200 (Ret (body_of arts)))) in
  exists ks e,
    structureNewsData (clock w) (body_of arts) = Throw e /\
    fetchNewsSentiment w env_with_key =
      ([NetworkCall (news_request ks); BodyRead; ConsoleError failure_label e], Ret None) /\
    (forall texts, texts_of (take 10 arts) = Ret texts -> e = ReadOfNullish "name").
Proof.
  apply (missing_source_absent _ env_with_key _ _ 1 (JObj [("title", JStr "No source")])
           JUndefined); [reflexivity | reflexivity | reflexivity | lia | reflexivity | reflexivity].
Defined.

(** * Checks on sample inputs *)

(** The example of the specification: one article on the Fed. *)
Example fed_article_summary :
  structureNewsData "2024-01-02T00:00:00.000Z"
    (body_of [JObj [ ("title", JStr "Fed holds interest rates steady");
                     ("description", JStr "Powell signals caution");
                     ("source", JObj [("name", JStr "X")]);
                     ("publishedAt", JStr "2024-01-01T00:00:00Z");
                     ("url", JStr "u1") ]]) =
  Ret (Some (Summary 1 ["monetary_policy"]
               [Headline (JStr "Fed holds interest rates steady") (JStr "X")
                         (JStr "2024-01-01T00:00:00Z") (JStr "u1")]
               "2024-01-02T00:00:00.000Z")).
Proof. reflexivity. Qed.

(** A rejected network call is logged and absorbed. *)
Example network_exception_absorbed :
  fetchNewsSentiment (world_of (Throw (PlatformError "fetch failed"))) env_with_key =
  ([NetworkCall (news_request "k123");
    ConsoleError failure_label (PlatformError "fetch failed")], Ret None).
Proof. reflexivity. Qed.

(** A body that is not JSON is logged and absorbed. *)
Example parse_exception_absorbed :
  fetchNewsSentiment
    (world_of (Ret (Response true 200 (Throw (PlatformError "Unexpected token <")))))
    env_with_key =
  ([NetworkCall (news_request "k123"); BodyRead;
    ConsoleError failure_label (PlatformError "Unexpected token <")], Ret None).
Proof. reflexivity. Qed.

(** Bodies of other shapes: [null], a text where the list should be,
    an object that only looks empty. *)
Example odd_bodies :
  structureNewsData "" JNull = Throw (ReadOfNullish "articles") /\
  structureNewsData "" (JObj [("articles", JStr "none")]) = Throw (NotCallable "forEach") /\
  structureNewsData "" (JObj [("articles", JObj [("length", JNum "0")])]) = Ret None /\
  structureNewsData "" (JObj [("articles", JObj [])]) = Throw (NotCallable "slice").
Proof. repeat split; reflexivity. Qed.

(** A missing configuration object is a fault of the first read. *)
Example no_env_absorbed :
  fetchNewsSentiment (world_of (Throw (PlatformError "unused"))) JUndefined =
  ([ConsoleError failure_label (ReadOfNullish "NEWSAPI_KEY")], Ret None).
Proof. reflexivity. Qed.

(** * Further properties of the module *)

(** ** The runs of fetchNewsSentiment *)

Lemma fetch_run_shape w env : run_shape w env (fetchNewsSentiment w env).
Proof.
  destruct (get_prop env "NEWSAPI_KEY") as [key|e] eqn:Hg;
    [|rewrite (fetch_env_fault w env e Hg); by constructor].
  destruct (truthy key) eqn:Hk;
    [|rewrite (fetch_no_key w env key Hg Hk); by econstructor].
  destruct (to_string key) as [ks|e] eqn:Hs;
    [|rewrite (fetch_key_fault w env key e Hg Hk Hs); by econstructor].
  destruct (fetch w (news_request ks)) as [resp|e] eqn:Hf.
  2:{ destruct (has_message e) eqn:He.
      - rewrite (fetch_network_fault w env key ks e Hg Hk Hs Hf He).
        eapply shape_called; eauto. by eapply call_fault.
      - rewrite (fetch_network_escape w env key ks e Hg Hk Hs Hf He).
        eapply shape_called; eauto. by eapply call_escape. }
  destruct (ok resp) eqn:Hok.
  2:{ rewrite (fetch_not_ok w env key ks resp Hg Hk Hs Hf Hok).
      eapply shape_called; eauto. by eapply call_not_ok. }
  destruct (json resp) as [data|e] eqn:Hj.
  2:{ destruct (has_message e) eqn:He.
      - rewrite (fetch_body_fault w env key ks resp e Hg Hk Hs Hf Hok Hj He).
        eapply shape_called; eauto. by eapply call_body_fault.
      - rewrite (fetch_body_escape w env key ks resp e Hg Hk Hs Hf Hok Hj He).
        eapply shape_called; eauto. by eapply call_body_escape. }
  rewrite (fetch_body w env key ks resp data Hg Hk Hs Hf Hok Hj).
  destruct (structureNewsData (clock w) data) as [r|e] eqn:Hd;
    (eapply shape_called; eauto).
  - by eapply call_result.
  - by eapply call_data_fault.
Qed.

Lemma after_call_no_network w ks tr r req :
  after_call w ks (tr, r) -> NetworkCall req ∉ tr.
Proof.
  intros H Hin. inversion H; subst;
    repeat (apply elem_of_cons in Hin as [Hin|Hin]; [discriminate|]);
    by apply elem_of_nil in Hin.
Qed.

Lemma after_call_filter w ks tr r :
  after_call w ks (tr, r) -> List.filter is_network_call tr = [].
Proof. intros H. by inversion H. Qed.

(** X1. A run makes at most one network call.  When it makes one, the
    credential is present and converts to text, the call is the first
    thing the run does, and the request is the fixed query with that
    text as [apiKey]. *)
Theorem at_most_one_network_call (w : world) (env : jsval) :
  length (List.filter is_network_call (fst (fetchNewsSentiment w env))) <= 1 /\
  forall req, NetworkCall req ∈ fst (fetchNewsSentiment w env) ->
    exists key ks,
      get_prop env "NEWSAPI_KEY" = Ret key /\ truthy key = true /\
      to_string key = Ret ks /\ req = news_request ks /\
      head (fst (fetchNewsSentiment w env)) = Some (NetworkCall req).
Proof.
  destruct (fetch_run_shape w env) as [e He|key Hg Hk|key e Hg Hk Hs|key ks tr r Hg Hk Hs Hc];
    cbn [fst].
  - split; [simpl; lia|]. by intros req [=]%list_elem_of_singleton.
  - split; [simpl; lia|]. by intros req [=]%list_elem_of_singleton.
  - split; [simpl; lia|]. by intros req [=]%list_elem_of_singleton.
  - split.
    + cbn [List.filter is_network_call]. rewrite (after_call_filter _ _ _ _ Hc). simpl. lia.
    + intros req [[= ->]|Hin]%elem_of_cons.
      * exists key, ks. done.
      * by apply (after_call_no_network _ _ _ _ req) in Hc.
Qed.

(** X2. A summary is returned only by a run that got a success
    response whose body parsed and from which [structureNewsData]
    built that summary; such a run emits nothing on the console: its
    trace is the network call and the body read. *)
Theorem summary_only_from_success (w : world) (env : jsval) (s : summary) :
  snd (fetchNewsSentiment w env) = Ret (Some s) ->
  exists ks data,
    delivered w env = Some data /\
    structureNewsData (clock w) data = Ret (Some s) /\
    fst (fetchNewsSentiment w env) = [NetworkCall (news_request ks); BodyRead] /\
    List.filter is_console (fst (fetchNewsSentiment w env)) = [].
Proof.
  destruct (fetch_run_shape w env) as [e He|key Hg Hk|key e Hg Hk Hs|key ks tr r Hg Hk Hs Hc];
    cbn [fst snd]; try discriminate.
  intros ->. inversion Hc as [| | | | | |resp data r' Hf Hok Hj Hd]; subst.
  exists ks, data. split_and!; try done.
  unfold delivered. by rewrite Hg, Hk, Hs, Hf, Hok, Hj.
Qed.

Lemma summary_only_from_success_witness :
  let w := world_of (Ret (Response true 200 (Ret (body_of [fed_article])))) in
  exists ks data,
    delivered w env_with_key = Some data /\
    structureNewsData (clock w) data = Ret (Some fed_summary) /\
    fst (fetchNewsSentiment w env_with_key) = [NetworkCall (news_request ks); BodyRead] /\
    List.filter is_console (fst (fetchNewsSentiment w env_with_key)) = [].
Proof.
  apply (summary_only_from_success
           (world_of (Ret (Response true 200 (Ret (body_of [fed_article])))))
           env_with_key fed_summary).
  reflexivity.
Defined.

(** X3. When the network call itself throws (a rejected [fetch]), the
    body is never read.  If the thrown value is an Error object, or
    anything but [undefined] and [null], the run logs it once at error
    level and returns [null]; if it is [undefined] or [null], the
    handler faults at [error.message], nothing is logged and the run
    throws that fault. *)
Theorem fetch_rejection_logged (w : world) (env key : jsval) (ks : string) (e : error) :
  get_prop env "NEWSAPI_KEY" = Ret key -> truthy key = true -> to_string key = Ret ks ->
  fetch w (news_request ks) = Throw e ->
  fetchNewsSentiment w env =
    (if has_message e
     then ([NetworkCall (news_request ks); ConsoleError failure_label e], Ret None)
     else ([NetworkCall (news_request ks)], Throw (ReadOfNullish "message"))) /\
  BodyRead ∉ fst (fetchNewsSentiment w env).
Proof.
  intros Hg Hk Hs Hf. destruct (has_message e) eqn:He.
  - rewrite (fetch_network_fault w env key ks e Hg Hk Hs Hf He).
    split; [done|]. cbn [fst]. intros Hin.
    repeat (apply elem_of_cons in Hin as [Hin|Hin]; [discriminate|]).
    by apply elem_of_nil in Hin.
  - rewrite (fetch_network_escape w env key ks e Hg Hk Hs Hf He).
    split; [done|]. cbn [fst]. by intros [=]%list_elem_of_singleton.
Qed.

Lemma fetch_rejection_logged_witness :
  let w := world_of (Throw (PlatformError "fetch failed")) in
  fetchNewsSentiment w env_with_key =
    ([NetworkCall (news_request "k123");
      ConsoleError failure_label (PlatformError "fetch failed")], Ret None) /\
  BodyRead ∉ fst (fetchNewsSentiment w env_with_key).
Proof.
  apply (fetch_rejection_logged (world_of (Throw (PlatformError "fetch failed")))
           env_with_key (JStr "k123") "k123" (PlatformError "fetch failed"));
    reflexivity.
Defined.

(** X4. When reading the body throws (a body that is not JSON).  If the
    thrown value is an Error object, or anything but [undefined] and
    [null], the run logs it once at error level, as its only console
    message, and returns [null]; if it is [undefined] or [null], the
    handler faults at [error.message], nothing is logged and the run
    throws that fault. *)
Theorem body_rejection_logged (w : world) (env key : jsval) (ks : string)
    (resp : response) (e : error) :
  get_prop env "NEWSAPI_KEY" = Ret key -> truthy key = true -> to_string key = Ret ks ->
  fetch w (news_request ks) = Ret resp -> ok resp = true -> json resp = Throw e ->
  fetchNewsSentiment w env =
    (if has_message e
     then ([NetworkCall (news_request ks); BodyRead; ConsoleError failure_label e], Ret None)
     else ([NetworkCall (news_request ks); BodyRead], Throw (ReadOfNullish "message"))) /\
  List.filter is_console (fst (fetchNewsSentiment w env)) =
    (if has_message e then [ConsoleError failure_label e] else []).
Proof.
  intros Hg Hk Hs Hf Hok Hj. destruct (has_message e) eqn:He.
  - by rewrite (fetch_body_fault w env key ks resp e Hg Hk Hs Hf Hok Hj He).
  - by rewrite (fetch_body_escape w env key ks resp e Hg Hk Hs Hf Hok Hj He).
Qed.

Lemma body_rejection_logged_witness :
  let e := PlatformError "Unexpected token <" in
  let w := world_of (Ret (Response true 200 (Throw e))) in
  fetchNewsSentiment w env_with_key =
    ([NetworkCall (news_request "k123"); BodyRead; ConsoleError failure_label e], Ret None) /\
  List.filter is_console (fst (fetchNewsSentiment w env_with_key)) =
    [ConsoleError failure_label e].
Proof.
  apply (body_rejection_logged
           (world_of (Ret (Response true 200 (Throw (PlatformError "Unexpected token <")))))
           env_with_key (JStr "k123") "k123"
           (Response true 200 (Throw (PlatformError "Unexpected token <")))
           (PlatformError "Unexpected token <"));
    reflexivity.
Defined.

(** X5. A run writes at most one message to the console.  A warning is
    the missing-credential text or the status text; an error carries
    the fixed label; and after either the result is [null]. *)
Theorem at_most_one_console_message (w : world) (env : jsval) :
  length (List.filter is_console (fst (fetchNewsSentiment w env))) <= 1 /\
  (forall msg, ConsoleWarn msg ∈ fst (fetchNewsSentiment w env) ->
     (msg = "NEWSAPI_KEY not configured" \/
      exists status, msg = "NewsAPI returned " +:+ render status) /\
     snd (fetchNewsSentiment w env) = Ret None) /\
  (forall label e, ConsoleError label e ∈ fst (fetchNewsSentiment w env) ->
     label = failure_label /\ snd (fetchNewsSentiment w env) = Ret None).
Proof.
  destruct (fetch_run_shape w env) as [e He|key Hg Hk|key e Hg Hk Hs|key ks tr r Hg Hk Hs Hc];
    cbn [fst snd].
  - split_and!; [simpl; lia | |].
    + by intros msg [=]%list_elem_of_singleton.
    + by intros label e' [= -> ->]%list_elem_of_singleton.
  - split_and!; [simpl; lia | |].
    + intros msg [= ->]%list_elem_of_singleton. auto.
    + by intros label e' [=]%list_elem_of_singleton.
  - split_and!; [simpl; lia | |].
    + by intros msg [=]%list_elem_of_singleton.
    + by intros label e' [= -> ->]%list_elem_of_singleton.
  - inversion Hc; subst; (split_and!; [simpl; lia | |]).
    all: try (intros msg Hin;
              repeat (apply elem_of_cons in Hin as [Hin|Hin];
                      [try discriminate; injection Hin as ->; eauto|]);
              by apply elem_of_nil in Hin).
    all: intros label e' Hin;
      repeat (apply elem_of_cons in Hin as [Hin|Hin];
              [try discriminate; by injection Hin as -> ->|]);
      by apply elem_of_nil in Hin.
Qed.

(** ** structureNewsData beyond the claims *)

Lemma take_nonempty {A : Type} (l l' : list A) n :
  take (S n) l = take (S n) l' -> l = [] -> l' = [].
Proof. intros H ->. by destruct l'. Qed.

(** X6. Only the first 10 articles are looked at: two bodies whose
    article lists agree on their first 10 entries give the same
    result, whatever follows, malformed entries included. *)
Theorem beyond_ten_ignored (now : string) (raw raw' : jsval) (arts arts' : list jsval) :
  get_prop raw "articles" = Ret (JArr arts) ->
  get_prop raw' "articles" = Ret (JArr arts') ->
  take 10 arts = take 10 arts' ->
  structureNewsData now raw = structureNewsData now raw'.
Proof.
  intros Hg Hg' Ht.
  destruct (decide (arts = [])) as [Hnil|Hne].
  - assert (arts' = []) as Hnil' by by apply (take_nonempty arts arts' 9).
    subst. rewrite (structureNewsData_absent _ _ _ Hg) by by right.
    by rewrite (structureNewsData_absent _ _ _ Hg') by by right.
  - assert (arts' <> []) as Hne'.
    { intros Hnil'. apply Hne. by apply (take_nonempty arts' arts 9). }
    rewrite (structureNewsData_array _ _ _ Hg Hne).
    rewrite (structureNewsData_array _ _ _ Hg' Hne'). by rewrite Ht.
Qed.

Lemma beyond_ten_ignored_witness :
  structureNewsData "2024-01-02T00:00:00.000Z" (body_of twelve) =
  structureNewsData "2024-01-02T00:00:00.000Z" (body_of (take 10 twelve ++ [JNull; JStr "x"])).
Proof.
  apply (beyond_ten_ignored _ _ _ twelve (take 10 twelve ++ [JNull; JStr "x"]));
    reflexivity.
Defined.

Lemma headline_of_present a :
  source_present a = true -> headline_of a = Ret (projection a).
Proof.
  unfold source_present, headline_of, projection.
  destruct a as [| |b|r|str|items|props]; simpl; try done.
  by destruct (lookup_own "source" props).
Qed.

Lemma headline_of_returns a h : headline_of a = Ret h -> source_present a = true.
Proof.
  unfold source_present, headline_of.
  destruct a as [| |b|r|str|items|props]; simpl; try done.
  by destruct (lookup_own "source" props).
Qed.

Lemma headlines_returns l hs :
  map_result headline_of l = Ret hs -> forallb source_present l = true.
Proof.
  revert hs. induction l as [|a l IH]; simpl; intros hs; [done|].
  destruct (headline_of a) as [h|] eqn:Hh; cbn [bind]; [|done].
  destruct (map_result headline_of l) as [hs'|]; cbn [bind]; [|done].
  intros _. by rewrite (headline_of_returns a h Hh), (IH hs').
Qed.

Lemma headlines_present l :
  forallb source_present l = true -> map_result headline_of l = Ret (map projection l).
Proof.
  intros H. apply map_result_total, Forall_forall.
  intros a Ha%list_elem_of_In. apply headline_of_present.
  by apply (proj1 (forallb_forall _ _) H).
Qed.

(** X7. [structureNewsData] returns a summary exactly when the article
    list is a non-empty array, the search text of each of its first 10
    entries can be built, and each of them has a [source] to read
    [name] from; the summary is then the count [min 10 n], the themes
    ranked from those texts, the projections of those entries in
    order, and the clock. *)
Theorem summary_exactly_when (now : string) (raw : jsval) (s : summary) :
  structureNewsData now raw = Ret (Some s) <->
  exists arts texts,
    get_prop raw "articles" = Ret (JArr arts) /\ arts <> [] /\
    texts_of (take 10 arts) = Ret texts /\
    forallb source_present (take 10 arts) = true /\
    s = Summary (min 10 (length arts)) (rank_themes texts)
                (map projection (take 10 arts)) now.
Proof.
  split.
  - intros (arts & texts & hs & Hg & Hne & Ht & Hh & ->)%structureNewsData_present.
    exists arts, texts. split_and!; try done.
    + by apply (headlines_returns _ hs).
    + by rewrite (headlines_projection _ _ Hh), length_take.
  - intros (arts & texts & Hg & Hne & Ht & Hsrc & ->).
    rewrite (structureNewsData_array _ _ _ Hg Hne).
    rewrite (extractThemes_texts _ _ Ht). cbn [bind].
    rewrite (headlines_present _ Hsrc). cbn [bind]. by rewrite length_take.
Qed.

Lemma map_result_first_throw {A B : Type} (f : A -> result B) pre a post ys e :
  map_result f pre = Ret ys -> f a = Throw e ->
  map_result f (pre ++ a :: post) = Throw e.
Proof.
  revert ys. induction pre as [|x pre IH]; simpl; intros ys Hpre Ha.
  - by rewrite Ha.
  - destruct (f x); cbn [bind] in *; [|done].
    destruct (map_result f pre) as [ys'|]; cbn [bind] in *; [|done].
    by rewrite (IH ys').
Qed.

(** X8. The fault of the first article whose search text cannot be
    built is the one reported: when the texts of the articles before
    index [i < 10] can be built and the text of article [i] faults
    with [e], [structureNewsData] throws [e], and [fetchNewsSentiment]
    logs [e] and returns [null]. *)
Theorem first_fault_reported (w : world) (env data : jsval) (arts : list jsval)
    (i : nat) (a : jsval) (before : list string) (e : error) :
  delivered w env = Some data ->
  get_prop data "articles" = Ret (JArr arts) ->
  arts !! i = Some a -> i < 10 ->
  texts_of (take i arts) = Ret before -> search_text a = Throw e ->
  structureNewsData (clock w) data = Throw e /\
  exists ks, fetchNewsSentiment w env =
    ([NetworkCall (news_request ks); BodyRead; ConsoleError failure_label e], Ret None).
Proof.
  intros Hd Hg Hi Hlt Hpre Ha.
  assert (Hne : arts <> []) by (intros ->; done).
  assert (Hthrow : structureNewsData (clock w) data = Throw e).
  { rewrite (structureNewsData_array _ _ _ Hg Hne).
    unfold extractThemes. rewrite forEach_articles_texts.
    assert (Hi' : take 10 arts !! i = Some a) by by rewrite lookup_take_lt.
    rewrite <- (take_drop_middle _ _ _ Hi'), take_take, Nat.min_l by lia.
    unfold texts_of in *.
    by rewrite (map_result_first_throw search_text _ a _ before e Hpre Ha). }
  split; [done|].
  destruct (fetch_delivered w env data Hd) as [ks Hrun]. exists ks.
  by rewrite Hrun, Hthrow.
Qed.

Lemma first_fault_reported_witness :
  let arts := [article "GDP surprises" ""; JNull; article "CPI cools" ""] in
  let w := world_of (Ret (Response true 200 (Ret (body_of arts)))) in
  structureNewsData (clock w) (body_of arts) = Throw (ReadOfNullish "title") /\
  exists ks, fetchNewsSentiment w env_with_key =
    ([NetworkCall (news_request ks); BodyRead;
      ConsoleError failure_label (ReadOfNullish "title")], Ret None).
Proof.
  apply (first_fault_reported _ env_with_key _
           [article "GDP surprises" ""; JNull; article "CPI cools" ""] 1 JNull
           ["gdp surprises "] (ReadOfNullish "title"));
    [reflexivity | reflexivity | reflexivity | lia | reflexivity | reflexivity].
Defined.

(** ** What a keyword match is *)

Lemma prefix_spec kw text :
  String.prefix kw text = true <-> exists post, text = kw +:+ post.
Proof.
  revert kw. induction text as [|c text IH]; intros [|k kw]; simpl.
  - split; [by exists ""|done].
  - split; [done | by intros [post [=]]].
  - split; [by eexists|done].
  - destruct (ascii_dec k c) as [->|Hne].
    + rewrite IH. split; intros [post Hp]; exists post; [by rewrite Hp|by injection Hp].
    + split; [done | intros [post [=]]; done].
Qed.

Lemma includes_spec text kw :
  includes text kw = true <-> exists pre post, text = pre +:+ kw +:+ post.
Proof.
  induction text as [|c text IH]; cbn [includes]; rewrite orb_true_iff.
  - rewrite prefix_spec. split.
    + intros [[post Hp]|[=]]. by exists "", post.
    + intros ([|? ?] & post & Hp); [|done]. left. by exists post.
  - rewrite prefix_spec, IH. split.
    + intros [[post Hp]|(pre & post & Hp)].
      * by exists "", post.
      * exists (String c pre), post. simpl. by rewrite Hp.
    + intros ([|c' pre] & post & Hp); simpl in Hp.
      * left. by exists post.
      * right. injection Hp as -> ->. by exists pre, post.
Qed.

(** X9. Matching is plain containment: a keyword list matches a search
    text exactly when one of its keywords occurs somewhere in the
    text, with anything before and after it, inside a longer word
    included. *)
Theorem keyword_match_is_containment (text : string) (keywords : list string) :
  some_keyword text keywords = true <->
  exists kw before after, kw ∈ keywords /\ text = before +:+ kw +:+ after.
Proof.
  unfold some_keyword. rewrite existsb_exists. split.
  - intros (kw & Hin & (pre & post & Hp)%includes_spec).
    exists kw, pre, post. split; [by apply list_elem_of_In | done].
  - intros (kw & pre & post & Hin & Hp). exists kw.
    split; [by apply list_elem_of_In|]. apply includes_spec. eauto.
Qed.

(** ** Articles that do not count, and the order of articles *)

Lemma count_fold_no_hit text tbl o :
  existsb (hit text) tbl = false -> fold_left (count_theme text) tbl o = o.
Proof.
  induction tbl as [|e tbl IH]; simpl; [done|].
  intros [He Ht]%orb_false_iff. unfold count_theme at 2. unfold hit in He.
  rewrite He. by apply IH.
Qed.

Lemma forEach_articles_can_count items o :
  forEach_articles (List.filter can_count items) o = forEach_articles items o.
Proof.
  revert o. induction items as [|a items IH]; intros o; [done|].
  cbn [List.filter]. unfold can_count at 1.
  destruct (search_text a) as [text|e] eqn:Ha.
  - destruct (any_keyword text) eqn:Hk; cbn [forEach_articles]; rewrite Ha; cbn [bind].
    + apply IH.
    + unfold count_article. rewrite (count_fold_no_hit _ _ _ Hk). apply IH.
  - cbn [forEach_articles]. by rewrite Ha.
Qed.

(** X11. Articles whose search text contains no keyword of the table
    have no influence: removing them from the list leaves the result
    of [extractThemes] unchanged, faults included. *)
Theorem unmatched_articles_ignored (items : list jsval) :
  extractThemes (JArr (List.filter can_count items)) = extractThemes (JArr items).
Proof. unfold extractThemes. by rewrite forEach_articles_can_count. Qed.

(** X12. When at most three themes are matched, none is dropped: the
    themes returned are exactly the matched themes of the table, in
    some order. *)
Theorem all_matched_when_few (items : list jsval) (texts : list string) :
  texts_of items = Ret texts -> length (surviving texts) <= 3 ->
  exists themes,
    extractThemes (JArr items) = Ret themes /\
    themes ≡ₚ surviving texts /\
    forall th, th ∈ themes <-> 0 < occurrences th texts.
Proof.
  intros Ht Hlen. exists (rank_themes texts).
  assert (Hperm : rank_themes texts ≡ₚ surviving texts).
  { apply submseteq_length_Permutation.
    - apply NoDup_submseteq; [apply rank_themes_NoDup|].
      intros th [_ Hpos]%rank_themes_elem. by apply elem_of_surviving.
    - rewrite rank_themes_length. lia. }
  split_and!; [by apply extractThemes_texts | done |].
  intros th. by rewrite Hperm, elem_of_surviving.
Qed.

Lemma all_matched_when_few_witness :
  exists themes,
    extractThemes (JArr growth_first) = Ret themes /\
    themes ≡ₚ surviving growth_first_texts /\
    forall th, th ∈ themes <-> 0 < occurrences th growth_first_texts.
Proof.
  apply (all_matched_when_few growth_first growth_first_texts); [reflexivity|].
  vm_compute. lia.
Defined.

Lemma map_result_perm {A B : Type} (f : A -> result B) l l' ys :
  l ≡ₚ l' -> map_result f l = Ret ys ->
  exists ys', map_result f l' = Ret ys' /\ ys ≡ₚ ys'.
Proof.
  intros Hp. revert ys. induction Hp as [|x l l' Hp IH|x y l|l l' l'' Hp IH Hp' IH'];
    intros ys; simpl.
  - intros [= <-]. by exists [].
  - destruct (f x) as [z|]; cbn [bind]; [|done].
    destruct (map_result f l) as [zs|]; cbn [bind]; [|done].
    intros [= <-]. destruct (IH zs eq_refl) as (zs' & -> & Hzs).
    cbn [bind]. exists (z :: zs'). split; [done|]. by constructor.
  - destruct (f y) as [v|]; cbn [bind]; [|done].
    destruct (f x) as [u|]; cbn [bind]; [|done].
    destruct (map_result f l) as [zs|]; cbn [bind]; [|done].
    intros [= <-]. exists (u :: v :: zs). split; [done|]. apply Permutation_swap.
  - intros H. destruct (IH ys H) as (ys' & H' & Hys).
    destruct (IH' ys' H') as (ys'' & H'' & Hys').
    exists ys''. split; [done|]. by etrans.
Qed.

Lemma occurrences_perm th texts texts' :
  texts ≡ₚ texts' -> occurrences th texts = occurrences th texts'.
Proof.
  unfold occurrences.
  induction 1 as [|x l l' Hp IH|x y l|l l' l'' Hp IH Hp' IH']; cbn [List.filter].
  - done.
  - destruct (theme_matches th x); cbn [length]; by rewrite IH.
  - by destruct (theme_matches th x), (theme_matches th y).
  - by etrans.
Qed.

Lemma surviving_perm texts texts' : texts ≡ₚ texts' -> surviving texts = surviving texts'.
Proof.
  intros Hp. unfold surviving. apply filter_ext.
  intros th. by rewrite (occurrences_perm th _ _ Hp).
Qed.

(** X13. The order of the articles does not change any count: a
    reordered list has buildable texts too, with the same number of
    occurrences of every theme.  When at most three themes are matched
    it does not change which themes are returned either: the two
    results are the same up to their order. *)
Theorem article_order_when_few (items items' : list jsval) (texts : list string) :
  items ≡ₚ items' -> texts_of items = Ret texts ->
  exists texts' themes themes',
    texts_of items' = Ret texts' /\
    (forall th, occurrences th texts' = occurrences th texts) /\
    extractThemes (JArr items) = Ret themes /\
    extractThemes (JArr items') = Ret themes' /\
    (length (surviving texts) <= 3 -> themes ≡ₚ themes').
Proof.
  intros Hp Ht.
  destruct (map_result_perm search_text items items' texts Hp Ht) as (texts' & Ht' & Hpt).
  assert (Hs : surviving texts = surviving texts') by by apply surviving_perm.
  assert (Hperm : forall ts, length (surviving ts) <= 3 -> rank_themes ts ≡ₚ surviving ts).
  { intros ts Hl. apply submseteq_length_Permutation.
    - apply NoDup_submseteq; [apply rank_themes_NoDup|].
      intros th [_ Hpos]%rank_themes_elem. by apply elem_of_surviving.
    - rewrite rank_themes_length. lia. }
  exists texts', (rank_themes texts), (rank_themes texts'). split_and!.
  - done.
  - intros th. symmetry. by apply occurrences_perm.
  - by apply extractThemes_texts.
  - by apply extractThemes_texts.
  - intros Hlen.
    rewrite (Hperm texts Hlen), (Hperm texts') by by rewrite <- Hs. by rewrite Hs.
Qed.

Lemma article_order_when_few_witness :
  exists texts' themes themes',
    texts_of (reverse growth_first) = Ret texts' /\
    (forall th, occurrences th texts' = occurrences th growth_first_texts) /\
    extractThemes (JArr growth_first) = Ret themes /\
    extractThemes (JArr (reverse growth_first)) = Ret themes' /\
    (length (surviving growth_first_texts) <= 3 -> themes ≡ₚ themes').
Proof.
  apply (article_order_when_few growth_first (reverse growth_first) growth_first_texts);
    [symmetry; apply reverse_Permutation | reflexivity].
Defined.

(** ** Themes and headlines together *)

Lemma map_result_lookup {A B : Type} (f : A -> result B) l ys i y :
  map_result f l = Ret ys -> ys !! i = Some y ->
  exists x, l !! i = Some x /\ f x = Ret y.
Proof.
  revert ys i. induction l as [|x l IH]; simpl; intros ys i.
  - by intros [= <-].
  - destruct (f x) as [z|] eqn:Hx; cbn [bind]; [|done].
    destruct (map_result f l) as [zs|]; cbn [bind]; [|done].
    intros [= <-]. destruct i as [|i]; simpl.
    + intros [= <-]. eauto.
    + by apply IH.
Qed.

Lemma occurrences_pos_text th texts :
  0 < occurrences th texts ->
  exists i text, texts !! i = Some text /\ theme_matches th text = true.
Proof.
  unfold occurrences. intros Hpos.
  destruct (List.filter (theme_matches th) texts) as [|text l] eqn:E; [simpl in Hpos; lia|].
  assert (In text (List.filter (theme_matches th) texts)) as [Hin Hm]%filter_In
    by (rewrite E; by left).
  apply list_elem_of_In, list_elem_of_lookup_1 in Hin as [i Hi]. eauto.
Qed.

(** X14. Every theme of a summary is backed by one of its headlines:
    for each theme returned there is an article among those counted
    whose search text contains a keyword of that theme, and whose
    projection is the headline at the same position. *)
Theorem themes_backed_by_headlines (now : string) (raw : jsval) (arts : list jsval)
    (s : summary) (j : nat) (t : string) :
  get_prop raw "articles" = Ret (JArr arts) ->
  structureNewsData now raw = Ret (Some s) ->
  themes s !! j = Some t ->
  exists i a text,
    i < articleCount s /\ arts !! i = Some a /\
    search_text a = Ret text /\ theme_matches t text = true /\
    headlines s !! i = Some (projection a).
Proof.
  intros Hg (arts' & texts & hs & Hg' & _ & Ht & Hh & ->)%structureNewsData_present Hj.
  rewrite Hg in Hg'. injection Hg' as <-. cbn [themes articleCount headlines] in *.
  apply list_elem_of_lookup_2, rank_themes_elem in Hj as [_ Hpos].
  destruct (occurrences_pos_text t texts Hpos) as (i & text & Hi & Hm).
  destruct (map_result_lookup search_text _ _ _ _ Ht Hi) as (a & [Ha Hlt]%lookup_take_Some & Hs).
  exists i, a, text. split_and!; try done.
  - rewrite length_take. apply lookup_lt_Some in Ha. lia.
  - rewrite (headlines_projection _ _ Hh). change (map projection ?l) with (projection <$> l).
    by rewrite list_lookup_fmap, lookup_take_lt, Ha.
Qed.

Lemma themes_backed_by_headlines_witness :
  exists i a text,
    i < articleCount fed_summary /\ [fed_article] !! i = Some a /\
    search_text a = Ret text /\ theme_matches "monetary_policy" text = true /\
    headlines fed_summary !! i = Some (projection a).
Proof.
  apply (themes_backed_by_headlines "2024-01-02T00:00:00.000Z" (body_of [fed_article])
           [fed_article] fed_summary 0 "monetary_policy"); reflexivity.
Defined.

(** ** When the call throws *)

(** X15. [fetchNewsSentiment] throws in one situation only: the
    credential is present and converts to text, and the network call,
    or the body read of a success response, rejects with [undefined]
    or [null]; what it throws is then the fault of the read of
    [message] in the handler.  In every other run it ends with a
    value. *)
Theorem throws_exactly_on_nullish_rejection (w : world) (env : jsval) (e' : error) :
  snd (fetchNewsSentiment w env) = Throw e' <->
  e' = ReadOfNullish "message" /\
  exists key ks v,
    get_prop env "NEWSAPI_KEY" = Ret key /\ truthy key = true /\
    to_string key = Ret ks /\ nullish v = true /\
    (fetch w (news_request ks) = Throw (Thrown v) \/
     exists resp, fetch w (news_request ks) = Ret resp /\ ok resp = true /\
                  json resp = Throw (Thrown v)).
Proof.
  assert (Hnull : forall e, has_message e = false -> exists v, e = Thrown v /\ nullish v = true).
  { intros [| | | |v] He; try done. exists v. split; [done|]. by destruct v. }
  split.
  - destruct (fetch_run_shape w env) as [e He|key Hg Hk|key e Hg Hk Hs|key ks tr r Hg Hk Hs Hc];
      cbn [snd]; try done.
    inversion Hc as [|e Hf He|resp| |resp e Hf Hok Hj He| |]; subst; try done.
    + intros [= <-]. split; [done|]. destruct (Hnull e He) as (v & -> & Hv).
      exists key, ks, v. split_and!; auto.
    + intros [= <-]. split; [done|]. destruct (Hnull e He) as (v & -> & Hv).
      exists key, ks, v. split_and!; eauto.
  - intros (-> & key & ks & v & Hg & Hk & Hs & Hv & [Hf|(resp & Hf & Hok & Hj)]).
    + rewrite (fetch_network_escape w env key ks _ Hg Hk Hs Hf); [done|].
      simpl. by rewrite Hv.
    + rewrite (fetch_body_escape w env key ks resp _ Hg Hk Hs Hf Hok Hj); [done|].
      simpl. by rewrite Hv.
Qed.
